(** * postgrest-go: the client of [client.go], embedded and verified

    The file follows [client.go]: the header set of [net/http], the
    [transport] that stamps default headers and resolves URLs, the [Client]
    with its two engines ([net/http] and [fasthttp]), and the operations
    [NewClient], [NewClientFast], [SetFastHTTPMaxConns], [Ping], [SetApiKey],
    [SetAuthToken], [ChangeSchema], [Rpc] and [RoundTrip].

    Go values are modelled as follows.
    - [string] is Go's string; a [[]byte] payload is a string as well.
    - [error] is the message of a Go error; a nilable error slot is an
      [option error].
    - A pointer that may be nil is an [option]; dereferencing [None] panics.
    - [http.Header] (a [map[string][]string]) is a [gmap string (list string)].
    - The collaborators outside the repository ([net/url], [path],
      [encoding/json], the clock and the two HTTP engines) are the fields of
      the classes [net_url] and [Engines]; the module [Demo] gives one
      executable instance of them. *)

From Stdlib Require Import ZArith Ascii String.
From stdpp Require Import base option list strings gmap fin_maps.

Local Open Scope Z_scope.

(** ** Errors and panics *)

Definition error : Type := string.

(** [errors.New] *)
Definition errors_New (msg : string) : error := msg.

Inductive panic : Type :=
| nil_pointer_dereference.

(** ** [net/textproto]: canonical header keys, as [http.Header] applies them *)

Module textproto.

Definition byte_in (lo hi : nat) (c : ascii) : bool :=
  (lo <=? nat_of_ascii c)%nat && (nat_of_ascii c <=? hi)%nat.

Definition is_lower (c : ascii) : bool := byte_in 97 122 c.
Definition is_upper (c : ascii) : bool := byte_in 65 90 c.
Definition is_digit (c : ascii) : bool := byte_in 48 57 c.

(** The token characters of RFC 7230: letters, digits and
    ! # $ % & ' * + - . ^ _ ` | ~ *)
Definition validHeaderFieldByte (c : ascii) : bool :=
  is_lower c || is_upper c || is_digit c
  || bool_decide (nat_of_ascii c ∈
       [33; 35; 36; 37; 38; 39; 42; 43; 45; 46; 94; 95; 96; 124; 126]%nat).

Definition toLower : nat := 32.

Definition is_dash (c : ascii) : bool := (nat_of_ascii c =? 45)%nat.

(** One step of the canonicalising loop: upper case at the start and after
    a dash, lower case elsewhere. *)
Definition canon_byte (upper : bool) (c : ascii) : ascii :=
  if upper && is_lower c then ascii_of_nat (nat_of_ascii c - toLower)
  else if negb upper && is_upper c then ascii_of_nat (nat_of_ascii c + toLower)
  else c.

Fixpoint canon_loop (upper : bool) (s : string) : string :=
  match s with
  | EmptyString => EmptyString
  | String c s' =>
      let c' := canon_byte upper c in
      String c' (canon_loop (is_dash c') s')
  end.

Fixpoint all_valid (s : string) : bool :=
  match s with
  | EmptyString => true
  | String c s' => validHeaderFieldByte c && all_valid s'
  end.

(** [textproto.CanonicalMIMEHeaderKey]: a key that holds a byte outside
    the token characters (a space included) is returned unchanged. *)
Definition CanonicalMIMEHeaderKey (s : string) : string :=
  if all_valid s then canon_loop true s else s.

End textproto.

(** ** [http.Header] *)

Abbreviation Header := (gmap string (list string)).

Module http_Header.

Definition Values (h : Header) (key : string) : list string :=
  default [] (h !! textproto.CanonicalMIMEHeaderKey key).

(** [h.Set(key, value)]: the values of the key become [[value]]. *)
Definition Set_ (key value : string) (h : Header) : Header :=
  <[textproto.CanonicalMIMEHeaderKey key := [value]]> h.

(** [h.Add(key, value)]: the value is appended to the values of the key. *)
Definition Add (key value : string) (h : Header) : Header :=
  <[textproto.CanonicalMIMEHeaderKey key := Values h key ++ [value]]> h.

(** The header lines of one entry of the map *)
Definition lines (kv : string * list string) : list (string * string) :=
  (λ v, (kv.1, v)) <$> kv.2.

(** The header lines a header set stands for: one (name, value) pair for
    each value of each name. *)
Definition pairs (h : Header) : list (string * string) :=
  map_to_list h ≫= lines.

(** Every key is in canonical form, as all keys written by [Set_] and
    [Add] are. *)
Definition canonical (h : Header) : Prop :=
  ∀ k vs, h !! k = Some vs → textproto.CanonicalMIMEHeaderKey k = k.

End http_Header.


(** ** The collaborators outside the repository *)

(** [net/url] and [path]. [URL_of_Path p] is the literal [&url.URL{Path: p}];
    [URL_ResolveReference base ref] is [base.ResolveReference(ref)];
    [http_NewRequest_URL s] is the URL that [http.NewRequest] gives the
    request it builds for the address [s], or its error (the methods used
    here, GET and POST, are valid, so the address is its only source of
    failure). *)
Class net_url : Type := {
  URL : Type;
  url_Parse : string → error + URL;
  URL_Path : URL → string;
  URL_of_Path : string → URL;
  URL_ResolveReference : URL → URL → URL;
  URL_String : URL → string;
  path_Join : list string → string;
  http_NewRequest_URL : string → error + URL;
}.

Section Messages.
Context `{net_url}.

(** [http.Request]: [ctx_Deadline] is the deadline of the request's
    context, [None] for the background context of [http.NewRequest]. *)
Record Request : Type := {
  Method : string;
  req_URL : URL;
  req_Header : Header;
  req_Body : string;
  ctx_Deadline : option Z;
}.

(** [http.Response]: the status line text, the status code, and what
    reading and closing the body give. *)
Record Response : Type := {
  Status : string;
  StatusCode : Z;
  Body_ReadAll : error + string;
  Body_Close : option error;
}.

(** [fasthttp.Request]: the header lines are kept in the order they were
    added. *)
Record fasthttp_Request : Type := {
  fh_Method : string;
  fh_RequestURI : string;
  fh_Header : list (string * string);
  fh_Body : string;
}.

Record fasthttp_Response : Type := {
  fh_StatusCode : Z;
  fh_RespBody : string;
}.

(** [fasthttp.Client] *)
Record fasthttp_Client : Type := {
  MaxConnsPerHost : Z;
}.

End Messages.

(** The engines, the JSON encoder and the clock. [World] is the state of
    everything outside the process (servers, network, time); an engine call
    may change it. [fasthttp_Do fc req deadline] stands for [fc.Do(req, resp)]
    when [deadline] is [None] and for [fc.DoDeadline(req, resp, d)] when it
    is [Some d]. *)
Class Engines `{net_url} : Type := {
  RoundTripper : Type;
  Value : Type;
  World : Type;
  json_Marshal : Value → error + string;
  time_Now : World → Z;
  DefaultTransport_RoundTrip : Request → World → (error + Response) * World;
  Parent_RoundTrip : RoundTripper → Request → World → (error + Response) * World;
  fasthttp_Do :
    fasthttp_Client → fasthttp_Request → option Z → World →
    (error + fasthttp_Response) * World;
}.

(** [time.Second], in nanoseconds *)
Definition time_Second : Z := 1000000000.

Definition version : string := "v0.1.1".

(** ** The client *)

Section Postgrest.
Context `{Engines}.

(** [transport]: [header] is a Go map and so shared by every copy of the
    struct; [Parent] is a nilable interface value. *)
Record transport : Type := {
  header : Header;
  baseURL : URL;
  Parent : option RoundTripper;
}.

(** The [Transport] field of an [http.Client]. The only pointer the code
    ever stores there is [&t], the transport the [Client] also holds in its
    own [Transport] field: one object, two references. *)
Inductive RoundTripper_ref : Type :=
| rt_nil
| rt_client_transport.

(** [http.Client] *)
Record http_Client : Type := {
  hc_Transport : RoundTripper_ref;
  hc_Timeout : Z;
}.

Record Client : Type := {
  ClientError : option error;
  session : http_Client;
  Transport : option transport;
  useFastHTTP : bool;
  fastHTTPClient : option fasthttp_Client;
}.

(** What reaches an engine: the request as the engine receives it. *)
Inductive EngineCall : Type :=
| via_DefaultTransport (req : Request)
| via_Parent (p : RoundTripper) (req : Request)
| via_fasthttp (fc : fasthttp_Client) (req : fasthttp_Request)
    (deadline : option Z).

(** What the engine answered. *)
Inductive Reply : Type :=
| reply_http (r : error + Response)
| reply_fasthttp (r : error + fasthttp_Response).

(** *** Methods as state transformers

    A method of [*Client] runs on the client it mutates, the world, and the
    log of the engine calls made so far with their answers; it returns or
    panics. *)
Record state : Type := {
  st_client : Client;
  st_world : World;
  st_log : list (EngineCall * Reply);
}.

Inductive outcome (A : Type) : Type :=
| Returned (a : A)
| Panicked (p : panic).
Global Arguments Returned {A} a.
Global Arguments Panicked {A} p.

Definition M (A : Type) : Type := state → outcome A * state.

Definition ret {A} (a : A) : M A := λ s, (Returned a, s).

Definition bind {A B} (m : M A) (k : A → M B) : M B :=
  λ s, match m s with
       | (Returned a, s') => k a s'
       | (Panicked p, s') => (Panicked p, s')
       end.

Definition throw {A} (p : panic) : M A := λ s, (Panicked p, s).

Definition get_client : M Client := λ s, (Returned (st_client s), s).

Definition put_client (c : Client) : M unit :=
  λ s, (Returned tt,
        {| st_client := c; st_world := st_world s; st_log := st_log s |}).

(** [*p] for a nilable pointer [p] *)
Definition deref {A} (p : option A) : M A :=
  match p with
  | Some a => ret a
  | None => throw nil_pointer_dereference
  end.

(** [time.Now()] *)
Definition Now : M Z := λ s, (Returned (time_Now (st_world s)), s).

(** An engine call: answered by the world, logged with its answer. *)
Definition engine {R} (call : EngineCall) (reply : R → Reply)
    (f : World → R * World) : M R :=
  λ s, let '(r, w) := f (st_world s) in
       (Returned r,
        {| st_client := st_client s; st_world := w;
           st_log := st_log s ++ [(call, reply r)] |}).

End Postgrest.

Declare Scope go_scope.
Delimit Scope go_scope with go.
Notation "x <- m ;; k" := (bind m (λ x, k))
  (at level 100, m at next level, right associativity) : go_scope.
Notation "m ;;; k" := (bind m (λ _, k))
  (at level 100, right associativity) : go_scope.

Section Operations.
Context `{Engines}.
Local Open Scope go_scope.

(** [c.ClientError = err] *)
Definition set_ClientError (err : error) : M unit :=
  c <- get_client ;;
  put_client {| ClientError := Some err; session := session c;
                Transport := Transport c; useFastHTTP := useFastHTTP c;
                fastHTTPClient := fastHTTPClient c |}.

(** [c.Transport.header.Set(key, value)]: the map is mutated in place, and
    the transport of [session] sees the same map. *)
Definition header_Set (key value : string) : M unit :=
  c <- get_client ;;
  t <- deref (Transport c) ;;
  put_client {| ClientError := ClientError c; session := session c;
                Transport := Some {| header := http_Header.Set_ key value (header t);
                                     baseURL := baseURL t; Parent := Parent t |};
                useFastHTTP := useFastHTTP c;
                fastHTTPClient := fastHTTPClient c |}.

(** The headers both constructors set, in the order of the source. *)
Definition required_headers (schema : string) (h : Header) : Header :=
  let h := http_Header.Set_ "Accept" "application/json" h in
  let h := http_Header.Set_ "Content-Type" "application/json" h in
  let h := http_Header.Set_ "Accept-Profile" schema h in
  let h := http_Header.Set_ "Content-Profile" schema h in
  http_Header.Set_ "X-Client-Info" ("postgrest-go/" +:+ version) h.

(** [for key, value := range headers { header.Set(key, value) }]: [headers]
    lists the entries of the Go map in the order the loop visits them (a
    nil map is the empty list). *)
Definition optional_headers (headers : list (string * string)) (h : Header)
    : Header :=
  foldl (λ h kv, http_Header.Set_ kv.1 kv.2 h) h headers.

Definition default_schema (schema : string) : string :=
  if String.eqb schema "" then "public" else schema.

Definition NewClient (rawURL schema : string)
    (headers : list (string * string)) : Client :=
  match url_Parse rawURL with
  | inl err =>
      {| ClientError := Some err;
         session := {| hc_Transport := rt_nil; hc_Timeout := 0 |};
         Transport := None; useFastHTTP := false; fastHTTPClient := None |}
  | inr baseURL =>
      let schema := default_schema schema in
      let h := required_headers schema ∅ in
      let h := optional_headers headers h in
      {| ClientError := None;
         session := {| hc_Transport := rt_client_transport; hc_Timeout := 0 |};
         Transport := Some {| header := h; baseURL := baseURL; Parent := None |};
         useFastHTTP := false; fastHTTPClient := None |}
  end.

Definition NewClientFast (rawURL schema : string)
    (headers : list (string * string)) : Client :=
  match url_Parse rawURL with
  | inl err =>
      {| ClientError := Some err;
         session := {| hc_Transport := rt_nil; hc_Timeout := 0 |};
         Transport := None; useFastHTTP := false; fastHTTPClient := None |}
  | inr baseURL =>
      let schema := default_schema schema in
      let h := required_headers schema ∅ in
      let h := optional_headers headers h in
      {| ClientError := None;
         session := {| hc_Transport := rt_nil; hc_Timeout := 0 |};
         Transport := Some {| header := h; baseURL := baseURL; Parent := None |};
         useFastHTTP := true;
         fastHTTPClient := Some {| MaxConnsPerHost := 30 |} |}
  end.

(** [fc.MaxConnsPerHost = n] *)
Definition set_MaxConnsPerHost (n : Z) (fc : fasthttp_Client)
    : fasthttp_Client :=
  {| MaxConnsPerHost := n |}.

Definition SetFastHTTPMaxConns (n : Z) : M unit :=
  let n := if n <=? 0 then 30 else n in
  c <- get_client ;;
  let fc := match fastHTTPClient c with
            | None => {| MaxConnsPerHost := 0 |}
            | Some fc => fc
            end in
  put_client {| ClientError := ClientError c; session := session c;
                Transport := Transport c; useFastHTTP := useFastHTTP c;
                fastHTTPClient := Some (set_MaxConnsPerHost n fc) |}.

Definition SetApiKey (apiKey : string) : M unit :=
  header_Set "apikey" apiKey.

Definition SetAuthToken (authToken : string) : M unit :=
  header_Set "Authorization" ("Bearer " +:+ authToken).

Definition ChangeSchema (schema : string) : M unit :=
  header_Set "Accept-Profile" schema ;;;
  header_Set "Content-Profile" schema.

(** [for headerName, values := range src { for _, val := range values
    { dst.Add(headerName, val) } }] on an [http.Header]. Go leaves the
    order in which [range] visits a map open; the fold visits the entries in
    one order, and what is proved of the header lines of a request holds
    up to their order. *)
Definition range_Add (src dst : Header) : Header :=
  map_fold (λ headerName values dst,
              foldl (λ dst val, http_Header.Add headerName val dst) dst values)
           dst src.

(** The same loop on the header of a [fasthttp.Request], whose [Add]
    appends a line. What [fasthttp] itself does with header names when it
    writes the request belongs to the engine. *)
Definition fasthttp_range_Add (src : Header) (dst : list (string * string))
    : list (string * string) :=
  map_fold (λ headerName values dst,
              foldl (λ dst val, dst ++ [(headerName, val)]) dst values)
           dst src.

(** [transport.RoundTrip] *)
Definition RoundTrip (t : transport) (req : Request) : M (error + Response) :=
  let req := {| Method := Method req;
                req_URL := URL_ResolveReference (baseURL t) (req_URL req);
                req_Header := range_Add (header t) (req_Header req);
                req_Body := req_Body req;
                ctx_Deadline := ctx_Deadline req |} in
  match Parent t with
  | Some p => engine (via_Parent p req) reply_http (Parent_RoundTrip p req)
  | None =>
      engine (via_DefaultTransport req) reply_http
             (DefaultTransport_RoundTrip req)
  end.

(** [http.NewRequest(method, url, body)] *)
Definition http_NewRequest (method url body : string) : error + Request :=
  match http_NewRequest_URL url with
  | inl err => inl err
  | inr u => inr {| Method := method; req_URL := u; req_Header := ∅;
                    req_Body := body; ctx_Deadline := None |}
  end.

(** [c.session.Do(req)]: a positive [Timeout] of the [http.Client] bounds
    the request; the round trip goes to the client's [Transport], or to
    [http.DefaultTransport] when that is nil. What [http.Client] does
    around the round trip (redirects, cookies) belongs to the engine. *)
Definition session_Do (req : Request) : M (error + Response) :=
  c <- get_client ;;
  now <- Now ;;
  let req :=
    if 0 <? hc_Timeout (session c)
    then {| Method := Method req; req_URL := req_URL req;
            req_Header := req_Header req; req_Body := req_Body req;
            ctx_Deadline := Some (now + hc_Timeout (session c)) |}
    else req in
  match hc_Transport (session c) with
  | rt_client_transport => t <- deref (Transport c) ;; RoundTrip t req
  | rt_nil =>
      engine (via_DefaultTransport req) reply_http
             (DefaultTransport_RoundTrip req)
  end.

(** [c.fastHTTPClient.Do(req, resp)] and [DoDeadline] *)
Definition fastHTTPClient_Do (req : fasthttp_Request) (deadline : option Z)
    : M (error + fasthttp_Response) :=
  c <- get_client ;;
  fc <- deref (fastHTTPClient c) ;;
  engine (via_fasthttp fc req deadline) reply_fasthttp
         (fasthttp_Do fc req deadline).

(** [fasthttp.AcquireRequest()] *)
Definition fasthttp_AcquireRequest : fasthttp_Request :=
  {| fh_Method := ""; fh_RequestURI := ""; fh_Header := []; fh_Body := "" |}.

(** [rel := &url.URL{Path: path.Join(c.Transport.baseURL.Path, elem...)}]
    and [full := c.Transport.baseURL.ResolveReference(rel)] *)
Definition full_URL (t : transport) (elem : list string) : URL :=
  let rel := URL_of_Path (path_Join (URL_Path (baseURL t) :: elem)) in
  URL_ResolveReference (baseURL t) rel.

Definition Ping : M bool :=
  c <- get_client ;;
  t <- deref (Transport c) ;;
  let full := full_URL t [""] in
  if useFastHTTP c then
    let req := fasthttp_AcquireRequest in
    let req := {| fh_Method := "GET"; fh_RequestURI := URL_String full;
                  fh_Header := fasthttp_range_Add (header t) (fh_Header req);
                  fh_Body := fh_Body req |} in
    now <- Now ;;
    let deadline := now + 5 * time_Second in
    r <- fastHTTPClient_Do req (Some deadline) ;;
    match r with
    | inl err => set_ClientError err ;;; ret false
    | inr resp =>
        if negb (fh_StatusCode resp =? 200)
        then set_ClientError (errors_New "ping failed") ;;; ret false
        else ret true
    end
  else
    match http_NewRequest "GET" (URL_String full) "" with
    | inl err => set_ClientError err ;;; ret false
    | inr req =>
        r <- session_Do req ;;
        match r with
        | inl err => set_ClientError err ;;; ret false
        | inr resp =>
            if negb (String.eqb (Status resp) "200 OK")
            then set_ClientError (errors_New "ping failed") ;;; ret false
            else ret true
        end
    end.

(** [count != "" && (count == "exact" || count == "planned" ||
    count == "estimated")] *)
Definition count_accepted (count : string) : bool :=
  negb (String.eqb count "")
  && (String.eqb count "exact" || String.eqb count "planned"
      || String.eqb count "estimated").

(** The first lines of [Rpc]: [byteBody] stays nil for a nil [rpcBody]
    ([None]) and is the marshalled body otherwise. *)
Definition Rpc_byteBody (rpcBody : option Value) : error + option string :=
  match rpcBody with
  | None => inr None
  | Some v =>
      match json_Marshal v with
      | inl err => inl err
      | inr jsonBody => inr (Some jsonBody)
      end
  end.

Definition Rpc (name count : string) (rpcBody : option Value) : M string :=
  match Rpc_byteBody rpcBody with
  | inl err => set_ClientError err ;;; ret ""
  | inr byteBody =>
      c <- get_client ;;
      t <- deref (Transport c) ;;
      let full := full_URL t ["rpc"; name] in
      if useFastHTTP c then
        let req := fasthttp_AcquireRequest in
        let req := {| fh_Method := "POST"; fh_RequestURI := URL_String full;
                      fh_Header := fh_Header req;
                      fh_Body := match byteBody with
                                 | Some b => b
                                 | None => fh_Body req
                                 end |} in
        let req := {| fh_Method := fh_Method req;
                      fh_RequestURI := fh_RequestURI req;
                      fh_Header := fasthttp_range_Add (header t) (fh_Header req);
                      fh_Body := fh_Body req |} in
        let req :=
          if count_accepted count
          then {| fh_Method := fh_Method req;
                  fh_RequestURI := fh_RequestURI req;
                  fh_Header := fh_Header req ++ [("Prefer", "count=" +:+ count)];
                  fh_Body := fh_Body req |}
          else req in
        r <- fastHTTPClient_Do req None ;;
        match r with
        | inl err => set_ClientError err ;;; ret ""
        | inr resp => ret (fh_RespBody resp)
        end
      else
        let readerBody := default "" byteBody in
        match http_NewRequest "POST" (URL_String full) readerBody with
        | inl err => set_ClientError err ;;; ret ""
        | inr req =>
            let req :=
              if count_accepted count
              then {| Method := Method req; req_URL := req_URL req;
                      req_Header :=
                        http_Header.Add "Prefer" ("count=" +:+ count)
                                        (req_Header req);
                      req_Body := req_Body req;
                      ctx_Deadline := ctx_Deadline req |}
              else req in
            r <- session_Do req ;;
            match r with
            | inl err => set_ClientError err ;;; ret ""
            | inr resp =>
                match Body_ReadAll resp with
                | inl err => set_ClientError err ;;; ret ""
                | inr body =>
                    let result := body in
                    match Body_Close resp with
                    | Some err => set_ClientError err ;;; ret ""
                    | None => ret result
                    end
                end
            end
        end
  end.

(** Running a method on a client in a world, with an empty log. *)
Definition run {A} (m : M A) (c : Client) (w : World) : outcome A * state :=
  m {| st_client := c; st_world := w; st_log := [] |}.

End Operations.

(** ** Properties of clients, calls and runs *)

Section Properties.
Context `{Engines}.

(** A client as a successful construction leaves it and as every method
    keeps it: it has a transport whose header keys are canonical, the
    pooled engine has its [fasthttp.Client], and the standard engine has a
    session that goes through the transport and sets no timeout. *)
Definition ready (c : Client) : Prop :=
  ∃ t, Transport c = Some t
       ∧ http_Header.canonical (header t)
       ∧ if useFastHTTP c then is_Some (fastHTTPClient c)
         else session c
              = {| hc_Transport := rt_client_transport; hc_Timeout := 0 |}.

(** The two engines *)
Inductive Engine : Type :=
| standard
| pooled.

Definition active_engine (c : Client) : Engine :=
  if useFastHTTP c then pooled else standard.

Definition engine_of (call : EngineCall) : Engine :=
  match call with
  | via_DefaultTransport _ | via_Parent _ _ => standard
  | via_fasthttp _ _ _ => pooled
  end.

(** The request of an engine call, read the same way for both engines *)
Definition call_Method (call : EngineCall) : string :=
  match call with
  | via_DefaultTransport req | via_Parent _ req => Method req
  | via_fasthttp _ req _ => fh_Method req
  end.

Definition call_address (call : EngineCall) : string :=
  match call with
  | via_DefaultTransport req | via_Parent _ req => URL_String (req_URL req)
  | via_fasthttp _ req _ => fh_RequestURI req
  end.

Definition call_lines (call : EngineCall) : list (string * string) :=
  match call with
  | via_DefaultTransport req | via_Parent _ req =>
      http_Header.pairs (req_Header req)
  | via_fasthttp _ req _ => fh_Header req
  end.

Definition call_payload (call : EngineCall) : string :=
  match call with
  | via_DefaultTransport req | via_Parent _ req => req_Body req
  | via_fasthttp _ req _ => fh_Body req
  end.

Definition call_deadline (call : EngineCall) : option Z :=
  match call with
  | via_DefaultTransport req | via_Parent _ req => ctx_Deadline req
  | via_fasthttp _ _ deadline => deadline
  end.

(** *** Sequences of method calls *)

Inductive operation : Type :=
| op_SetFastHTTPMaxConns (n : Z)
| op_SetApiKey (apiKey : string)
| op_SetAuthToken (authToken : string)
| op_ChangeSchema (schema : string)
| op_Ping
| op_Rpc (name count : string) (rpcBody : option Value).

Definition perform (o : operation) : M unit :=
  (match o with
   | op_SetFastHTTPMaxConns n => SetFastHTTPMaxConns n
   | op_SetApiKey apiKey => SetApiKey apiKey
   | op_SetAuthToken authToken => SetAuthToken authToken
   | op_ChangeSchema schema => ChangeSchema schema
   | op_Ping => Ping ;;; ret tt
   | op_Rpc name count rpcBody => Rpc name count rpcBody ;;; ret tt
   end)%go.

Fixpoint perform_all (ops : list operation) : M unit :=
  (match ops with
   | [] => ret tt
   | o :: ops => perform o ;;; perform_all ops
   end)%go.

(** The header each typed setter writes, in the words of the
    specification: [apikey], [Authorization] with the bearer prefix, and
    the two profile headers. *)
Definition written (o : operation) : list (string * string) :=
  match o with
  | op_SetApiKey apiKey => [("apikey", apiKey)]
  | op_SetAuthToken authToken => [("Authorization", "Bearer " +:+ authToken)]
  | op_ChangeSchema schema =>
      [("Accept-Profile", schema); ("Content-Profile", schema)]
  | _ => []
  end.

(** [h.Set] once for each header line of the list, in order *)
Definition Set_all (l : list (string * string)) (h : Header) : Header :=
  foldl (λ h nv, http_Header.Set_ nv.1 nv.2 h) h l.

Definition same_header (name : string) (line : string * string) : bool :=
  String.eqb (textproto.CanonicalMIMEHeaderKey line.1)
             (textproto.CanonicalMIMEHeaderKey name).

(** The value the last typed setter call gave the header, if any did *)
Definition last_written (name : string) (ops : list operation)
    : option string :=
  snd <$> last (List.filter (same_header name) (ops ≫= written)).

(** What [m] adds to the log goes through the engine of the client it
    started on, and [m] leaves the choice of engine as it was. *)
Definition keeps_engine {A} (m : M A) : Prop :=
  ∀ s0 : state,
    useFastHTTP (st_client (m s0).2) = useFastHTTP (st_client s0)
    ∧ ∃ new, st_log (m s0).2 = st_log s0 ++ new
        ∧ Forall (λ cr, engine_of cr.1 = active_engine (st_client s0)) new.

(** *** The wording of the specification *)

(** The five headers both constructors set: JSON accept and content type,
    the two profile headers for the schema, and the client
    identification. *)
Definition baseline (schema : string) : list (string * string) :=
  [("Accept", "application/json");
   ("Content-Type", "application/json");
   ("Accept-Profile", schema);
   ("Content-Profile", schema);
   ("X-Client-Info", "postgrest-go/" +:+ version)].

(** A failed construction, as the specification words it: the error is
    recorded, there is no transport, and [Ping] returns false. *)
Definition failed_construction_is_safe (c : Client) (w : World) : Prop :=
  ClientError c ≠ None ∧ Transport c = None
  ∧ ∃ s, run Ping c w = (Returned false, s).

(** The baseline headers, as the specification words them: the header
    set holds the JSON, schema and identification values, and the baseline
    headers are six. *)
Definition baseline_headers_present (c : Client) (schema : string) : Prop :=
  ∃ t, Transport c = Some t
       ∧ ∀ name value, (name, value) ∈ baseline schema →
           http_Header.Values (header t) name = [value].

Definition six_baseline_headers (c : Client) (schema : string) : Prop :=
  baseline_headers_present c schema
  ∧ ∃ t, Transport c = Some t ∧ (6 ≤ size (header t))%nat.

(** The counting preferences [Rpc] accepts *)
Definition counts : list string := ["exact"; "planned"; "estimated"].

(** The [Prefer] header of [Rpc], as the specification words it: an
    accepted count is sent as [Prefer: count=<count>]; with any other
    count no request carries a [Prefer] header. *)
Definition Prefer_only_for_counts (c : Client) (w : World)
    (name count : string) (rpcBody : option Value) : Prop :=
  let s := (run (Rpc name count rpcBody) c w).2 in
  (count ∈ counts →
   ∀ cr, cr ∈ st_log s → ("Prefer", "count=" +:+ count) ∈ call_lines cr.1)
  ∧ (count ∉ counts →
     ∀ cr value, cr ∈ st_log s → ("Prefer", value) ∉ call_lines cr.1).

(** The [Prefer] line [Rpc] adds for the count, if it adds one *)
Definition Prefer_count (count : string) : list (string * string) :=
  if count_accepted count then [("Prefer", "count=" +:+ count)] else [].

(** The payload of the request for a body *)
Definition payload (rpcBody : option Value) : string :=
  match Rpc_byteBody rpcBody with
  | inr (Some jsonBody) => jsonBody
  | _ => ""
  end.

(** [Rpc] succeeded with the given result: the engine answered with a
    response, and on the standard engine its body was read and closed
    without error. *)
Definition Rpc_succeeded (s : state) (result : string) : Prop :=
  ∃ call reply, st_log s = [(call, reply)]
    ∧ match reply with
      | reply_http (inr resp) =>
          Body_ReadAll resp = inr result ∧ Body_Close resp = None
      | reply_fasthttp (inr resp) => fh_RespBody resp = result
      | _ => False
      end.

(** The body is nil or the encoder accepts it. *)
Definition marshals (rpcBody : option Value) : Prop :=
  ∀ v, rpcBody = Some v → ∃ jsonBody, json_Marshal v = inr jsonBody.

(** [Rpc] failed with the given error, by the four failures of the
    specification: marshalling the body, constructing the request, the
    transport, reading the body. *)
Inductive Rpc_failed (c : Client) (name : string) (rpcBody : option Value)
    (s : state) (err : error) : Prop :=
| failed_marshal (v : Value) :
    rpcBody = Some v → json_Marshal v = inl err →
    Rpc_failed c name rpcBody s err
| failed_request (t : transport) :
    marshals rpcBody →
    Transport c = Some t → useFastHTTP c = false →
    http_NewRequest_URL (URL_String (full_URL t ["rpc"; name])) = inl err →
    Rpc_failed c name rpcBody s err
| failed_transport (call : EngineCall) :
    st_log s = [(call, reply_http (inl err))]
    ∨ st_log s = [(call, reply_fasthttp (inl err))] →
    Rpc_failed c name rpcBody s err
| failed_read (call : EngineCall) (resp : Response) :
    st_log s = [(call, reply_http (inr resp))] →
    Body_ReadAll resp = inl err →
    Rpc_failed c name rpcBody s err.

(** Closing the body of the response failed, after it was read. *)
Definition Rpc_close_failed (s : state) (err : error) : Prop :=
  ∃ call resp body, st_log s = [(call, reply_http (inr resp))]
    ∧ Body_ReadAll resp = inr body ∧ Body_Close resp = Some err.


End Properties.

(** ** One executable instance of the collaborators

    URLs here have a scheme, an opaque part or a host, and a path; there is
    no query, fragment, user information or escaping, so the instance is
    meant for addresses such as [http://localhost:3000/v1] and paths made of
    unreserved characters. The functions follow [net/url] and [path] on that
    fragment. The world holds the answer each engine gives and the time. *)

Module Demo.

Record url : Type := {
  Scheme : string;
  Opaque : string;
  Host : string;
  Path : string;
}.

(** [strings.Cut(s, sep)] for a one-byte separator *)
Fixpoint cut (sep : ascii) (s : string) : option (string * string) :=
  match s with
  | EmptyString => None
  | String c s' =>
      if Ascii.eqb c sep then Some (EmptyString, s')
      else match cut sep s' with
           | Some (a, b) => Some (String c a, b)
           | None => None
           end
  end.

Fixpoint split (sep : ascii) (s : string) : list string :=
  match s with
  | EmptyString => [EmptyString]
  | String c s' =>
      if Ascii.eqb c sep then EmptyString :: split sep s'
      else match split sep s' with
           | x :: xs => String c x :: xs
           | [] => [String c EmptyString]
           end
  end.

Definition join (sep : string) (l : list string) : string :=
  match l with
  | [] => ""
  | x :: xs => foldl (λ acc y, acc +:+ sep +:+ y) x xs
  end.

Definition rooted (s : string) : bool :=
  match s with
  | String "/" _ => true
  | _ => false
  end.

Definition nonempty (s : string) : bool := negb (String.eqb s "").

(** [path.Clean] *)
Definition Clean (p : string) : string :=
  let step (stack : list string) (seg : string) : list string :=
    if String.eqb seg "" || String.eqb seg "." then stack
    else if String.eqb seg ".." then
      match stack with
      | top :: below =>
          if String.eqb top ".." then seg :: stack else below
      | [] => if rooted p then [] else [seg]
      end
    else seg :: stack in
  let body := join "/" (rev (foldl step [] (split "/" p))) in
  let out := if rooted p then "/" +:+ body else body in
  if String.eqb out "" then "." else out.

(** [path.Join] *)
Definition Join (elem : list string) : string :=
  match filter (λ e, nonempty e = true) elem with
  | [] => ""
  | es => Clean (join "/" es)
  end.

(** The scheme of [getScheme]: letters, then letters, digits, [+], [-],
    [.] up to the first colon. [None] is the error for a leading colon. *)
Fixpoint getScheme_from (i : nat) (acc s : string) : option (string * string) :=
  match s with
  | EmptyString => Some ("", acc)
  | String c s' =>
      let letter := textproto.is_lower c || textproto.is_upper c in
      let other := textproto.is_digit c
                   || bool_decide (nat_of_ascii c ∈ [43; 45; 46]%nat) in
      if letter then getScheme_from (S i) (acc +:+ String c "") s'
      else if other then
        match i with
        | O => Some ("", acc +:+ s)
        | _ => getScheme_from (S i) (acc +:+ String c "") s'
        end
      else if Ascii.eqb c ":" then
        match i with
        | O => None
        | _ => Some (acc, s')
        end
      else Some ("", acc +:+ s)
  end.

Definition first_segment_has_colon (p : string) : bool :=
  match split "/" p with
  | seg :: _ => bool_decide (is_Some (cut ":" seg))
  | [] => false
  end.

Definition Parse (rawURL : string) : error + url :=
  match getScheme_from 0 "" rawURL with
  | None => inl "missing protocol scheme"
  | Some (scheme, rest) =>
      match rest with
      | String "/" (String "/" authority_path) =>
          if String.eqb scheme "" && rooted authority_path
          then inr {| Scheme := scheme; Opaque := ""; Host := ""; Path := rest |}
          else
          match cut "/" authority_path with
          | Some (host, p) =>
              inr {| Scheme := scheme; Opaque := ""; Host := host;
                     Path := "/" +:+ p |}
          | None =>
              inr {| Scheme := scheme; Opaque := ""; Host := authority_path;
                     Path := "" |}
          end
      | _ =>
          if nonempty scheme && negb (rooted rest)
          then inr {| Scheme := scheme; Opaque := rest; Host := ""; Path := "" |}
          else if negb (rooted rest) && first_segment_has_colon rest
          then inl "first path segment in URL cannot contain colon"
          else inr {| Scheme := scheme; Opaque := ""; Host := ""; Path := rest |}
      end
  end.

(** [s[:strings.LastIndex(s, "/")]], the part of [s] before its last
    slash, if it has one *)
Definition before_last_slash (s : string) : option string :=
  match rev (split "/" s) with
  | _ :: (_ :: _) as front => Some (join "/" (rev front))
  | _ => None
  end.

(** [resolvePath] of [net/url] *)
Definition resolvePath (base ref : string) : string :=
  let full :=
    if String.eqb ref "" then base
    else if negb (rooted ref) then
      match before_last_slash base with
      | Some dir => dir +:+ "/" +:+ ref
      | None => ref
      end
    else ref in
  if String.eqb full "" then ""
  else
    let step (acc : string * bool) (elem : string) : string * bool :=
      let '(dst, first) := acc in
      if String.eqb elem "." then (dst, false)
      else if String.eqb elem ".." then
        let str := match dst with String _ r => r | EmptyString => "" end in
        match before_last_slash str with
        | None => ("/", true)
        | Some front => ("/" +:+ front, first)
        end
      else ((if first then dst else dst +:+ "/") +:+ elem, false) in
    let elems := split "/" full in
    let dst := (foldl step ("/", true) elems).1 in
    let dst :=
      match last elems with
      | Some e => if String.eqb e "." || String.eqb e ".." then dst +:+ "/" else dst
      | None => dst
      end in
    match dst with
    | String _ (String "/" _ as r) => r
    | _ => dst
    end.

Definition ResolveReference (u ref : url) : url :=
  let scheme := if String.eqb (Scheme ref) "" then Scheme u else Scheme ref in
  if nonempty (Scheme ref) || nonempty (Host ref) then
    {| Scheme := scheme; Opaque := Opaque ref; Host := Host ref;
       Path := resolvePath (Path ref) "" |}
  else if nonempty (Opaque ref) then
    {| Scheme := scheme; Opaque := Opaque ref; Host := ""; Path := "" |}
  else if String.eqb (Path ref) "" && nonempty (Opaque u) then
    {| Scheme := scheme; Opaque := Opaque u; Host := ""; Path := "" |}
  else
    {| Scheme := scheme; Opaque := Opaque ref; Host := Host u;
       Path := resolvePath (Path u) (Path ref) |}.

Definition String_ (u : url) : string :=
  let scheme := if nonempty (Scheme u) then Scheme u +:+ ":" else "" in
  if nonempty (Opaque u) then scheme +:+ Opaque u
  else
    let authority :=
      if nonempty (Scheme u) || nonempty (Host u)
      then (if nonempty (Host u) || nonempty (Path u) then "//" else "")
           +:+ Host u
      else "" in
    let slash :=
      if nonempty (Path u) && negb (rooted (Path u)) && nonempty (Host u)
      then "/" else "" in
    let dot :=
      if String.eqb (scheme +:+ authority +:+ slash) ""
         && first_segment_has_colon (Path u)
      then "./" else "" in
    scheme +:+ authority +:+ slash +:+ dot +:+ Path u.

#[export] Instance demo_url : net_url := {|
  URL := url;
  url_Parse := Parse;
  URL_Path := Path;
  URL_of_Path := λ p, {| Scheme := ""; Opaque := ""; Host := ""; Path := p |};
  URL_ResolveReference := ResolveReference;
  URL_String := String_;
  path_Join := Join;
  http_NewRequest_URL := Parse;
|}.

(** A value to marshal: JSON text, or a value the encoder rejects (such as
    a Go channel). *)
Inductive value : Type :=
| json_text (s : string)
| unsupported.

Record world : Type := {
  http_answer : error + Response;
  fasthttp_answer : error + fasthttp_Response;
  clock : Z;
}.

#[export] Instance demo_engines : Engines := {|
  RoundTripper := unit;
  Value := value;
  World := world;
  json_Marshal := λ v, match v with
                       | json_text s => inr s
                       | unsupported => inl "json: unsupported type"
                       end;
  time_Now := clock;
  DefaultTransport_RoundTrip := λ _ w, (http_answer w, w);
  Parent_RoundTrip := λ _ _ w, (http_answer w, w);
  fasthttp_Do := λ _ _ _ w, (fasthttp_answer w, w);
|}.

Definition ok_response (body : string) : Response :=
  {| Status := "200 OK"; StatusCode := 200; Body_ReadAll := inr body;
     Body_Close := None |}.

(** A server that answers 200 with the given body on both engines. *)
Definition serving (body : string) : world :=
  {| http_answer := inr (ok_response body);
     fasthttp_answer := inr {| fh_StatusCode := 200; fh_RespBody := body |};
     clock := 1000 |}.

(** A server that is down: both engines fail to connect. *)
Definition down : world :=
  {| http_answer := inl "dial tcp: connection refused";
     fasthttp_answer := inl "dial tcp: connection refused";
     clock := 1000 |}.

(** A server whose answer has the given status line and code. *)
Definition answering (status : string) (code : Z) : world :=
  {| http_answer := inr {| Status := status; StatusCode := code;
                           Body_ReadAll := inr ""; Body_Close := None |};
     fasthttp_answer := inr {| fh_StatusCode := code; fh_RespBody := "" |};
     clock := 1000 |}.

Definition localhost : string := "http://localhost:3000".

Definition base : url :=
  {| Scheme := "http"; Opaque := ""; Host := "localhost:3000"; Path := "" |}.

(** The transport both constructors build for [localhost], the default
    schema and the given extra headers *)
Definition default_transport (headers : list (string * string)) : transport :=
  {| header := optional_headers headers (required_headers "public" ∅);
     baseURL := base; Parent := None |}.

Definition standard_client : Client := NewClient localhost "" [].

Definition pooled_client : Client := NewClientFast localhost "" [].

(** A standard-engine client that has seen a failure: its [ClientError]
    holds the error of a [Ping] to a server that was down. *)
Definition client_after_failure : Client :=
  st_client (run Ping standard_client down).2.

(** What a logged call shows: engine, method, address, deadline *)
Definition shown (cr : EngineCall * Reply)
    : Engine * string * string * option Z :=
  (engine_of cr.1, call_Method cr.1, call_address cr.1, call_deadline cr.1).

End Demo.

(** ** Further notions: configuration calls, single values, the example
    program *)

Section More_properties.
Context `{Engines}.


(** Every header of the set has exactly one value. *)
Definition single_valued (h : Header) : Prop :=
  ∀ k vs, h !! k = Some vs → ∃ v, vs = [v].

(** The client with another content of its [ClientError] slot *)
Definition with_ClientError (ce : option error) (c : Client) : Client :=
  {| ClientError := ce; session := session c; Transport := Transport c;
     useFastHTTP := useFastHTTP c; fastHTTPClient := fastHTTPClient c |}.

(** [REST_URL] of [test/rpc/main.go] *)
Definition REST_URL : string := "http://localhost:3000".

(** How a program ends: it printed a text on its standard output, it
    called [panic] with an error, or the runtime panicked. *)
Inductive exit : Type :=
| printed (out : string)
| panic_with (err : error)
| runtime_panic (p : panic).

(** [fmt.Println(s)] writes [s] and a newline. *)
Definition Println (s : string) : string :=
  s +:+ String (ascii_of_nat 10) EmptyString.

(** [main] of [test/rpc/main.go]; [args] is the value of the literal
    [map[string]int{"a": 9, "b": 3}]. *)
Definition main (args : Value) (w : World) : exit * state :=
  let client := NewClientFast REST_URL "" [] in
  match ClientError client with
  | Some err =>
      (panic_with err, {| st_client := client; st_world := w; st_log := [] |})
  | None =>
      match run (Rpc "add_them" "" (Some args)) client w with
      | (Panicked p, s) => (runtime_panic p, s)
      | (Returned result, s) =>
          match ClientError (st_client s) with
          | Some err => (panic_with err, s)
          | None => (printed (Println result), s)
          end
      end
  end.

End More_properties.

(** * Facts *)

(** ** The model on concrete inputs *)

Example canon_apikey : textproto.CanonicalMIMEHeaderKey "apikey" = "Apikey".
Proof. reflexivity. Qed.

Example canon_profile :
  textproto.CanonicalMIMEHeaderKey "accept-PROFILE" = "Accept-Profile".
Proof. reflexivity. Qed.

Example canon_space : textproto.CanonicalMIMEHeaderKey "not a key" = "not a key".
Proof. reflexivity. Qed.

Section Demo_examples.
Import Demo.

Example parse_localhost :
  Parse "http://localhost:3000"
  = inr {| Scheme := "http"; Opaque := ""; Host := "localhost:3000"; Path := "" |}.
Proof. reflexivity. Qed.

Example parse_colon : Parse ":" = inl "missing protocol scheme".
Proof. reflexivity. Qed.

Example parse_words :
  Parse "not a url"
  = inr {| Scheme := ""; Opaque := ""; Host := ""; Path := "not a url" |}.
Proof. reflexivity. Qed.

Example join_rpc : Join ["/v1/"; "rpc"; "add_them"] = "/v1/rpc/add_them".
Proof. reflexivity. Qed.

Example join_empty : Join [""; ""] = "".
Proof. reflexivity. Qed.

Example resolve_dots : resolvePath "/a/b/c" "../d/./e" = "/a/d/e".
Proof. reflexivity. Qed.

Example resolve_actor :
  String_ (ResolveReference
             {| Scheme := "http"; Opaque := ""; Host := "host"; Path := "/v1" |}
             {| Scheme := ""; Opaque := ""; Host := ""; Path := "/actor" |})
  = "http://host/actor".
Proof. reflexivity. Qed.

End Demo_examples.

(** ** Canonical header keys *)

Module textproto_facts.
Import textproto.

Lemma canon_byte_idem (upper : bool) (c : ascii) :
  canon_byte upper (canon_byte upper c) = canon_byte upper c.
Proof.
  destruct upper, c as [[] [] [] [] [] [] [] []]; reflexivity.
Qed.

Lemma canon_byte_valid (upper : bool) (c : ascii) :
  validHeaderFieldByte (canon_byte upper c) = validHeaderFieldByte c.
Proof.
  destruct upper, c as [[] [] [] [] [] [] [] []]; reflexivity.
Qed.

Lemma canon_loop_idem (s : string) :
  ∀ upper, canon_loop upper (canon_loop upper s) = canon_loop upper s.
Proof.
  induction s as [|c s IH]; intros upper; simpl; [done|].
  by rewrite canon_byte_idem, IH.
Qed.

Lemma canon_loop_valid (s : string) :
  ∀ upper, all_valid (canon_loop upper s) = all_valid s.
Proof.
  induction s as [|c s IH]; intros upper; simpl; [done|].
  by rewrite canon_byte_valid, IH.
Qed.

Lemma CanonicalMIMEHeaderKey_idem (s : string) :
  CanonicalMIMEHeaderKey (CanonicalMIMEHeaderKey s) = CanonicalMIMEHeaderKey s.
Proof.
  unfold CanonicalMIMEHeaderKey.
  destruct (all_valid s) eqn:Hs.
  - by rewrite canon_loop_valid, Hs, canon_loop_idem.
  - by rewrite Hs.
Qed.

End textproto_facts.

(** ** Header sets *)

Module http_Header_facts.
Import textproto textproto_facts http_Header.

Local Abbreviation canon := CanonicalMIMEHeaderKey.

Lemma Values_Set_eq (h : Header) (key key' value : string) :
  canon key' = canon key → Values (Set_ key value h) key' = [value].
Proof.
  intros Hk. unfold Values, Set_. rewrite Hk. by rewrite lookup_insert_eq.
Qed.

Lemma Values_Set_ne (h : Header) (key key' value : string) :
  canon key' ≠ canon key → Values (Set_ key value h) key' = Values h key'.
Proof.
  intros Hk. unfold Values, Set_. by rewrite lookup_insert_ne.
Qed.

Lemma canonical_empty : canonical ∅.
Proof. intros k vs Hk. by rewrite lookup_empty in Hk. Qed.

Lemma canonical_insert (h : Header) (key : string) (vs : list string) :
  canonical h → canonical (<[canon key := vs]> h).
Proof.
  intros Hh k vs' Hk. destruct (decide (canon key = k)) as [<-|Hne].
  - apply CanonicalMIMEHeaderKey_idem.
  - rewrite lookup_insert_ne in Hk by done. eauto.
Qed.

Lemma canonical_Set (h : Header) (key value : string) :
  canonical h → canonical (Set_ key value h).
Proof. apply canonical_insert. Qed.

Lemma canonical_Add (h : Header) (key value : string) :
  canonical h → canonical (Add key value h).
Proof. apply canonical_insert. Qed.

Lemma pairs_insert (h : Header) (k : string) (vs : list string) :
  pairs (<[k := default [] (h !! k) ++ vs]> h) ≡ₚ pairs h ++ lines (k, vs).
Proof.
  unfold pairs. destruct (h !! k) as [old|] eqn:Hk; simpl.
  - rewrite <-(insert_delete_eq h).
    rewrite map_to_list_insert by apply lookup_delete_eq.
    rewrite <-(map_to_list_delete h k old) by done.
    simpl. unfold lines at 1 3; simpl. rewrite fmap_app.
    rewrite <-!(assoc_L (++)). f_equiv.
    apply Permutation_app_comm.
  - rewrite map_to_list_insert by done. simpl.
    apply Permutation_app_comm.
Qed.

Lemma pairs_Add (h : Header) (key value : string) :
  pairs (Add key value h) ≡ₚ pairs h ++ [(canon key, value)].
Proof. apply (pairs_insert h (canon key) [value]). Qed.

Lemma pairs_empty : pairs ∅ = [].
Proof. unfold pairs. by rewrite map_to_list_empty. Qed.

Lemma elem_of_pairs (h : Header) (k v : string) :
  (k, v) ∈ pairs h ↔ ∃ vs, h !! k = Some vs ∧ v ∈ vs.
Proof.
  unfold pairs. rewrite list_elem_of_bind. split.
  - intros [[k' vs] [Hin Hm]]. apply elem_of_map_to_list in Hm.
    apply list_elem_of_fmap in Hin as [v' [[= -> ->] Hv]]. eauto.
  - intros [vs [Hk Hv]]. exists (k, vs). split.
    + apply list_elem_of_fmap. eauto.
    + by apply elem_of_map_to_list.
Qed.

End http_Header_facts.

(** ** The header loops of [RoundTrip], [Ping] and [Rpc] *)

Section Loops.
Import textproto textproto_facts http_Header http_Header_facts.

Lemma pairs_foldl_Add (k : string) (vs : list string) :
  ∀ dst : Header,
    pairs (foldl (λ dst val, Add k val dst) dst vs)
    ≡ₚ pairs dst ++ lines (CanonicalMIMEHeaderKey k, vs).
Proof.
  induction vs as [|v vs IH]; intros dst; simpl.
  - unfold lines; simpl. by rewrite app_nil_r.
  - rewrite IH, pairs_Add. unfold lines; simpl.
    by rewrite <-(assoc_L (++)).
Qed.

Lemma pairs_range_Add (src dst : Header) :
  canonical src → pairs (range_Add src dst) ≡ₚ pairs dst ++ pairs src.
Proof.
  intros Hsrc. unfold range_Add. rewrite map_fold_foldr.
  assert (Hl : Forall (λ kv, CanonicalMIMEHeaderKey kv.1 = kv.1)
                      (map_to_list src)).
  { apply Forall_forall. intros [k vs] Hkv.
    apply elem_of_map_to_list in Hkv. by apply (Hsrc k vs). }
  unfold pairs at 3.
  induction Hl as [|[k vs] l Hk _ IH]; simpl.
  - by rewrite app_nil_r.
  - rewrite pairs_foldl_Add, IH. simpl in Hk. rewrite Hk.
    rewrite <-!(assoc_L (++)). f_equiv. apply Permutation_app_comm.
Qed.

Lemma canonical_range_Add (src dst : Header) :
  canonical dst → canonical (range_Add src dst).
Proof.
  intros Hdst. unfold range_Add. rewrite map_fold_foldr.
  induction (map_to_list src) as [|[k vs] l IH]; simpl; [done|].
  generalize dependent (foldr
    (uncurry (λ headerName values dst0,
       foldl (λ dst1 val, Add headerName val dst1) dst0 values)) dst l).
  induction vs as [|v vs IHv]; intros h Hh; simpl; [done|].
  apply IHv. by apply canonical_Add.
Qed.

Lemma fasthttp_range_Add_perm (src : Header) (dst : list (string * string)) :
  fasthttp_range_Add src dst ≡ₚ dst ++ pairs src.
Proof.
  unfold fasthttp_range_Add. rewrite map_fold_foldr.
  unfold pairs.
  induction (map_to_list src) as [|[k vs] l IH]; simpl.
  - by rewrite app_nil_r.
  - assert (Hin : ∀ acc : list (string * string),
               foldl (λ dst val, dst ++ [(k, val)]) acc vs
               = acc ++ lines (k, vs)).
    { induction vs as [|v vs IHv]; intros acc; simpl.
      - unfold lines; simpl. by rewrite app_nil_r.
      - rewrite IHv. unfold lines; simpl. by rewrite <-(assoc_L (++)). }
    rewrite Hin, IH. rewrite <-!(assoc_L (++)). f_equiv.
    apply Permutation_app_comm.
Qed.

End Loops.

(** ** Construction *)

Section Construction.
Import textproto textproto_facts http_Header http_Header_facts.
Context `{Engines}.

Lemma canonical_required_headers (schema : string) (h : Header) :
  canonical h → canonical (required_headers schema h).
Proof. intros Hh. unfold required_headers. by repeat apply canonical_Set. Qed.

Lemma canonical_optional_headers (headers : list (string * string)) :
  ∀ h : Header, canonical h → canonical (optional_headers headers h).
Proof.
  unfold optional_headers.
  induction headers as [|kv l IH]; intros h Hh; simpl; [done|].
  apply IH. by apply canonical_Set.
Qed.

Lemma Values_optional_headers_kept (headers : list (string * string))
    (name : string) :
  (∀ kv, kv ∈ headers → CanonicalMIMEHeaderKey kv.1 ≠ CanonicalMIMEHeaderKey name) →
  ∀ h : Header, Values (optional_headers headers h) name = Values h name.
Proof.
  unfold optional_headers.
  induction headers as [|kv l IH]; intros Hno h; simpl; [done|].
  rewrite IH by (intros kv' Hkv'; apply Hno; by right).
  apply Values_Set_ne. intros Heq. apply (Hno kv); [by left|done].
Qed.

Lemma Values_optional_headers_single (headers : list (string * string))
    (name : string) :
  ∀ h : Header, (∃ v, Values h name = [v]) →
    ∃ v, Values (optional_headers headers h) name = [v].
Proof.
  unfold optional_headers.
  induction headers as [|kv l IH]; intros h Hv; simpl; [done|].
  apply IH.
  destruct (decide (CanonicalMIMEHeaderKey name = CanonicalMIMEHeaderKey kv.1))
    as [Heq|Hne].
  - exists kv.2. by apply Values_Set_eq.
  - by rewrite Values_Set_ne.
Qed.

Lemma Values_required_headers (schema name value : string) :
  (name, value) ∈ baseline schema →
  Values (required_headers schema ∅) name = [value].
Proof.
  unfold baseline. rewrite !elem_of_cons, elem_of_nil.
  unfold required_headers.
  intros [[= -> ->]|[[= -> ->]|[[= -> ->]|[[= -> ->]|[[= -> ->]|[]]]]]];
    repeat (first [ by apply Values_Set_eq
                  | rewrite Values_Set_ne by (by vm_compute) ]).
Qed.

Lemma pairs_required_headers (schema : string) :
  size (required_headers schema ∅) = 5%nat
  ∧ pairs (required_headers schema ∅) ≡ₚ baseline schema.
Proof.
  unfold required_headers, Set_.
  assert (Hlines : ∀ (h : Header) k v, h !! k = None →
            pairs (<[k := [v]]> h) ≡ₚ pairs h ++ [(k, v)]).
  { intros h k v Hk. pose proof (pairs_insert h k [v]) as Hp.
    by rewrite Hk in Hp. }
  split.
  - repeat (rewrite map_size_insert_None;
            [|repeat (rewrite lookup_insert_ne by (by vm_compute));
              apply lookup_empty]).
    by rewrite map_size_empty.
  - repeat (rewrite Hlines;
            [|repeat (rewrite lookup_insert_ne by (by vm_compute));
              apply lookup_empty]).
    by rewrite pairs_empty.
Qed.

Lemma NewClient_ready (rawURL schema : string)
    (headers : list (string * string)) (u : URL) :
  url_Parse rawURL = inr u → ready (NewClient rawURL schema headers).
Proof.
  intros Hu. unfold NewClient, ready. rewrite Hu. simpl.
  eexists. split; [done|]. split; [|done]. simpl.
  apply canonical_optional_headers, canonical_required_headers,
    canonical_empty.
Qed.

Lemma NewClientFast_ready (rawURL schema : string)
    (headers : list (string * string)) (u : URL) :
  url_Parse rawURL = inr u → ready (NewClientFast rawURL schema headers).
Proof.
  intros Hu. unfold NewClientFast, ready. rewrite Hu. simpl.
  eexists. split; [done|]. split; [|by eexists]. simpl.
  apply canonical_optional_headers, canonical_required_headers,
    canonical_empty.
Qed.

(** C1, amended. When the URL fails to parse, the client that [NewClient]
    or [NewClientFast] returns records the parse error in [ClientError]
    and has a nil [Transport]; [Ping] on it dereferences that nil
    transport and panics, before any engine is called and without touching
    the client. *)
Theorem failed_construction_Ping_panics (rawURL schema : string)
    (headers : list (string * string)) (err : error) (c : Client) (w : World) :
  url_Parse rawURL = inl err →
  c = NewClient rawURL schema headers
  ∨ c = NewClientFast rawURL schema headers →
  ClientError c = Some err
  ∧ Transport c = None
  ∧ run Ping c w
    = (Panicked nil_pointer_dereference,
       {| st_client := c; st_world := w; st_log := [] |}).
Proof.
  intros Hu [->| ->]; unfold NewClient, NewClientFast; rewrite Hu;
    by repeat split.
Qed.

(** C2, amended. After a successful construction by [NewClient] or
    [NewClientFast] the default header set holds the five baseline headers
    [Accept], [Content-Type], [Accept-Profile], [Content-Profile] and
    [X-Client-Info], each with a single value; the value is the baseline
    one (JSON, the schema with [public] for the empty string, the client
    identification) unless the caller's extra headers name the same
    header; with no extra headers these five lines are the whole set. *)
Theorem constructors_set_five_baseline_headers (rawURL schema : string)
    (headers : list (string * string)) (u : URL) (c : Client) :
  url_Parse rawURL = inr u →
  c = NewClient rawURL schema headers
  ∨ c = NewClientFast rawURL schema headers →
  ∃ t, Transport c = Some t
    ∧ baseURL t = u
    ∧ (∀ name value, (name, value) ∈ baseline (default_schema schema) →
         (∃ v, Values (header t) name = [v])
         ∧ ((∀ kv, kv ∈ headers →
               CanonicalMIMEHeaderKey kv.1 ≠ CanonicalMIMEHeaderKey name) →
            Values (header t) name = [value]))
    ∧ (headers = [] →
       size (header t) = 5%nat
       ∧ pairs (header t) ≡ₚ baseline (default_schema schema)).
Proof.
  intros Hu Hc.
  assert (∃ t, Transport c = Some t ∧ baseURL t = u
               ∧ header t = optional_headers headers
                   (required_headers (default_schema schema) ∅))
    as (t & Ht & Hb & Hh).
  { destruct Hc as [->| ->]; unfold NewClient, NewClientFast; rewrite Hu;
      by eexists. }
  exists t. rewrite Hh. split; [done|]. split; [done|]. split.
  - intros name value Hin. split.
    + apply Values_optional_headers_single.
      exists value. by apply Values_required_headers.
    + intros Hno. rewrite Values_optional_headers_kept by done.
      by apply Values_required_headers.
  - intros ->. apply pairs_required_headers.
Qed.

End Construction.

(** ** Running the methods *)

Ltac unfold_methods :=
  cbv beta iota zeta delta
    [run perform Ping Rpc SetFastHTTPMaxConns SetApiKey SetAuthToken
     ChangeSchema session_Do RoundTrip fastHTTPClient_Do set_ClientError
     header_Set http_NewRequest engine bind ret throw get_client put_client
     deref Now fasthttp_AcquireRequest set_MaxConnsPerHost Rpc_byteBody] in *.

Ltac run_cases :=
  unfold_methods; simpl in *;
  repeat (case_match; unfold_methods; simpl in *; simplify_eq).

Section Engine_choice.
Context `{Engines}.

Lemma keeps_engine_perform (o : operation) : keeps_engine (perform o).
Proof.
  intros s0. destruct o; run_cases.
  all: split; [done|].
  all: first [ exists []; split; [by rewrite app_nil_r|constructor]
             | eexists [_]; split; [done|];
               repeat constructor; unfold active_engine; simpl;
               by repeat case_match ].
Qed.

Lemma keeps_engine_perform_all (ops : list operation) :
  keeps_engine (perform_all ops).
Proof.
  induction ops as [|o ops IH]; intros s0; simpl.
  - split; [done|]. exists []. split; [by rewrite app_nil_r|constructor].
  - unfold bind. destruct (keeps_engine_perform o s0) as (Hu & new & Hl & Hnew).
    destruct (perform o s0) as [[[]|p] s1]; simpl in *.
    + destruct (IH s1) as (Hu' & new' & Hl' & Hnew').
      split; [congruence|]. exists (new ++ new'). split.
      * by rewrite Hl', Hl, (assoc_L (++)).
      * apply Forall_app. split; [done|].
        unfold active_engine in *. by rewrite <-Hu.
    + split; [done|]. by exists new.
Qed.

(** C8. The engine of a client is the one its constructor chose:
    [NewClient] the standard engine, [NewClientFast] the pooled one. Every
    sequence of method calls, [SetFastHTTPMaxConns] on a standard-engine
    client included, leaves the choice as it was, and every request that
    [Ping] and [Rpc] send in the sequence goes through that engine. *)
Theorem engine_fixed_at_construction :
  (∀ rawURL schema headers,
     active_engine (NewClient rawURL schema headers) = standard)
  ∧ (∀ rawURL schema headers u,
       url_Parse rawURL = inr u →
       active_engine (NewClientFast rawURL schema headers) = pooled)
  ∧ (∀ (ops : list operation) (c : Client) (w : World),
       let s := (run (perform_all ops) c w).2 in
       active_engine (st_client s) = active_engine c
       ∧ ∀ cr, cr ∈ st_log s → engine_of cr.1 = active_engine c)
  ∧ (∀ (n : Z) (c : Client) (w : World),
       active_engine c = standard →
       let s := (run (SetFastHTTPMaxConns n) c w).2 in
       active_engine (st_client s) = standard ∧ st_log s = []).
Proof.
  split; [|split; [|split]].
  - intros rawURL schema headers. unfold NewClient, active_engine.
    by destruct (url_Parse rawURL).
  - intros rawURL schema headers u Hu. unfold NewClientFast, active_engine.
    by rewrite Hu.
  - intros ops c w s.
    destruct (keeps_engine_perform_all ops
                {| st_client := c; st_world := w; st_log := [] |})
      as (Hu & new & Hl & Hnew).
    fold (run (perform_all ops) c w) in Hu, Hl. fold s in Hu, Hl.
    simpl in *. split.
    + unfold active_engine. by rewrite Hu.
    + intros cr Hcr. rewrite Hl in Hcr.
      by apply (proj1 (Forall_forall _ _) Hnew).
  - intros n c w Hc. by simpl.
Qed.

End Engine_choice.

(** ** Results of [Ping] and [Rpc] *)

(** A ready client, taken apart: its transport is known, and so is the
    [fasthttp.Client] of the pooled engine and the session of the standard
    one. *)
Ltac ready_cases c Hready :=
  let t := fresh "t" in
  let Ht := fresh "Ht" in
  let Hcanon := fresh "Hcanon" in
  let Hengine := fresh "Hengine" in
  let fast := fresh "fast" in
  destruct Hready as (t & Ht & Hcanon & Hengine);
  destruct c as [? ? ? fast ?]; simpl in Ht, Hengine;
  destruct fast; [destruct Hengine as [? ->]|]; subst.

Section Results.
Context `{Engines}.

Lemma Ping_true_keeps_ClientError (c : Client) (w : World) (s : state) :
  run Ping c w = (Returned true, s) →
  ClientError (st_client s) = ClientError c.
Proof. intros Hrun. by run_cases. Qed.

Lemma Rpc_succeeded_keeps_ClientError (c : Client) (w : World)
    (name count : string) (rpcBody : option Value) (result : string) :
  let r := run (Rpc name count rpcBody) c w in
  Rpc_succeeded r.2 result →
  r.1 = Returned result ∧ ClientError (st_client r.2) = ClientError c.
Proof.
  intros r. subst r. unfold Rpc_succeeded. run_cases.
  all: intros (call & reply & Hlog & Hreply); simplify_eq; simpl in *.
  all: destruct_and?; simplify_eq; first [done | split; congruence].
Qed.

(** C9. On a client whose [ClientError] already holds an error, a [Ping]
    that returns true and an [Rpc] that succeeds leave [ClientError] as it
    was: the stale error stays observable. *)
Theorem success_keeps_stale_ClientError (c : Client) (w : World)
    (err : error) :
  ClientError c = Some err →
  (∀ s, run Ping c w = (Returned true, s) →
        ClientError (st_client s) = Some err)
  ∧ (∀ name count rpcBody result,
       let r := run (Rpc name count rpcBody) c w in
       Rpc_succeeded r.2 result →
       r.1 = Returned result ∧ ClientError (st_client r.2) = Some err).
Proof.
  intros Hc. split.
  - intros s Hrun. rewrite <-Hc. by apply (Ping_true_keeps_ClientError c w).
  - intros name count rpcBody result r Hok. rewrite <-Hc.
    by apply Rpc_succeeded_keeps_ClientError.
Qed.



(** Every call of [Rpc] on a ready client is a success, one of the four
    failures, or a failure to close the body that is reported like
    them. *)
Lemma Rpc_outcomes (c : Client) (w : World) (name count : string)
    (rpcBody : option Value) :
  ready c →
  let r := run (Rpc name count rpcBody) c w in
  (∃ result, Rpc_succeeded r.2 result)
  ∨ (∃ err, Rpc_failed c name rpcBody r.2 err)
  ∨ (∃ err, Rpc_close_failed r.2 err ∧ r.1 = Returned ""
            ∧ ClientError (st_client r.2) = Some err).
Proof.
  intros Hready r. subst r. unfold Rpc_succeeded, Rpc_close_failed.
  ready_cases c Hready; run_cases.
  all: try (left; eexists; eexists _, _; split; [done|]; by simpl).
  all: try (right; left; eexists; by eapply failed_marshal).
  all: try (right; left; eexists; eapply failed_transport; by eauto).
  all: try (right; left; eexists; by eapply failed_read).
  all: try (right; right; eexists; split; [by eexists _, _, _|done]).
  all: right; left; eexists; eapply failed_request; try done.
  all: by intros v' [= <-]; eauto.
Qed.


End Results.

(** ** The typed setters *)

Section Setters.
Import textproto textproto_facts http_Header http_Header_facts.
Context `{Engines}.

Lemma Set_all_app (l1 l2 : list (string * string)) (h : Header) :
  Set_all (l1 ++ l2) h = Set_all l2 (Set_all l1 h).
Proof. unfold Set_all. by rewrite foldl_app. Qed.

Lemma canonical_Set_all (l : list (string * string)) :
  ∀ h : Header, canonical h → canonical (Set_all l h).
Proof.
  unfold Set_all. induction l as [|nv l IH]; intros h Hh; simpl; [done|].
  apply IH. by apply canonical_Set.
Qed.

Lemma same_header_spec (name : string) (line : string * string) :
  same_header name line = true
  ↔ CanonicalMIMEHeaderKey line.1 = CanonicalMIMEHeaderKey name.
Proof. unfold same_header. apply String.eqb_eq. Qed.

Lemma Values_Set_all (name : string) (l : list (string * string)) :
  ∀ h : Header,
    Values (Set_all l h) name
    = match last (List.filter (same_header name) l) with
      | Some nv => [nv.2]
      | None => Values h name
      end.
Proof.
  unfold Set_all. induction l as [|nv l IH]; intros h; simpl; [done|].
  rewrite IH. destruct (same_header name nv) eqn:Hnv.
  - apply same_header_spec in Hnv. simpl.
    destruct (List.filter (same_header name) l) as [|y l']; simpl.
    + by apply Values_Set_eq.
    + by destruct (last (y :: l')) eqn:Hl;
        [|apply last_None in Hl].
  - destruct (last (List.filter (same_header name) l)); [done|].
    apply Values_Set_ne. intros Heq. symmetry in Heq.
    apply same_header_spec in Heq. congruence.
Qed.

(** A method call on a ready client returns, leaves the client ready with
    its base URL, and changes the header set by exactly the lines the
    typed setters write. *)
Lemma perform_ready (o : operation) (s0 : state) (t : transport) :
  ready (st_client s0) → Transport (st_client s0) = Some t →
  ∃ s1 t1, perform o s0 = (Returned tt, s1)
    ∧ ready (st_client s1)
    ∧ Transport (st_client s1) = Some t1
    ∧ baseURL t1 = baseURL t
    ∧ header t1 = Set_all (written o) (header t).
Proof.
  intros Hready Ht. destruct s0 as [c w l]. simpl in *.
  destruct Hready as (t' & Ht' & Hcanon & Hengine).
  assert (t' = t) as -> by congruence.
  destruct c as [ce sess tr fast fc]; simpl in *.
  destruct fast; [destruct Hengine as [fc' ->]|]; subst.
  all: destruct o; run_cases.
  all: eexists _, _; split; [done|]; simpl.
  all: split; [|by repeat split].
  all: unfold ready; simpl; eexists; split; [reflexivity|]; simpl.
  all: split; [|by eauto].
  all: by repeat apply canonical_Set.
Qed.

Lemma perform_all_ready (ops : list operation) :
  ∀ (s0 : state) (t : transport),
    ready (st_client s0) → Transport (st_client s0) = Some t →
    ∃ s1 t1, perform_all ops s0 = (Returned tt, s1)
      ∧ ready (st_client s1)
      ∧ Transport (st_client s1) = Some t1
      ∧ baseURL t1 = baseURL t
      ∧ header t1 = Set_all (ops ≫= written) (header t).
Proof.
  induction ops as [|o ops IH]; intros s0 t Hready Ht; simpl.
  - by exists s0, t.
  - destruct (perform_ready o s0 t Hready Ht)
      as (s1 & t1 & Hrun & Hready1 & Ht1 & Hb1 & Hh1).
    destruct (IH s1 t1 Hready1 Ht1) as (s2 & t2 & Hrun2 & ? & ? & Hb2 & Hh2).
    exists s2, t2. unfold bind. rewrite Hrun.
    repeat split; [done..|congruence|].
    by rewrite Hh2, Hh1, Set_all_app.
Qed.

Lemma filter_lines (name k : string) (vs : list string) :
  List.filter (same_header name) (lines (k, vs))
  = if same_header name (k, "") then lines (k, vs) else [].
Proof.
  unfold lines, same_header. simpl.
  destruct (String.eqb (CanonicalMIMEHeaderKey k)
                       (CanonicalMIMEHeaderKey name)) eqn:Hk.
  - induction vs as [|v vs IH]; csimpl; [done|]. by rewrite Hk, IH.
  - induction vs as [|v vs IH]; csimpl; [done|]. by rewrite Hk, IH.
Qed.

Lemma filter_entries (name : string) (l : list (string * list string)) :
  NoDup l.*1 →
  (∀ kv, kv ∈ l → CanonicalMIMEHeaderKey kv.1 = kv.1) →
  List.filter (same_header name) (l ≫= lines)
  = lines (CanonicalMIMEHeaderKey name,
           default [] ((list_to_map l : Header)
                         !! CanonicalMIMEHeaderKey name)).
Proof.
  induction l as [|[k vs] l IH]; intros Hnd Hcanon; [done|].
  apply NoDup_cons in Hnd as [Hk Hnd]. simpl in Hk.
  assert (Hkc : CanonicalMIMEHeaderKey k = k)
    by (apply (Hcanon (k, vs)); by left).
  specialize (IH Hnd (λ kv Hkv, Hcanon kv (list_elem_of_further _ _ _ Hkv))).
  rewrite bind_cons, List.filter_app, filter_lines, IH, list_to_map_cons.
  unfold same_header at 1. simpl. rewrite Hkc.
  destruct (String.eqb_spec k (CanonicalMIMEHeaderKey name)) as [->|Hne].
  - rewrite lookup_insert_eq.
    rewrite (not_elem_of_list_to_map_1 (M := gmap string)) by done.
    simpl. unfold lines at 2. simpl. by rewrite app_nil_r.
  - by rewrite lookup_insert_ne.
Qed.

(** The header lines with a given name are the values the map holds for
    it. *)
Lemma filter_pairs (name : string) (h : Header) :
  canonical h →
  List.filter (same_header name) (pairs h)
  = lines (CanonicalMIMEHeaderKey name, Values h name).
Proof.
  intros Hh. unfold pairs, Values. rewrite filter_entries.
  - by rewrite list_to_map_to_list.
  - apply NoDup_fst_map_to_list.
  - intros [k vs] Hkv. apply elem_of_map_to_list in Hkv. by apply (Hh k vs).
Qed.

Lemma last_written_snoc (name : string) (before : list operation)
    (o : operation) (line : string * string) :
  last (List.filter (same_header name) (written o)) = Some line →
  last_written name (before ++ [o]) = Some line.2.
Proof.
  intros Ho. unfold last_written.
  rewrite bind_app. simpl. rewrite app_nil_r, List.filter_app.
  destruct (List.filter (same_header name) (written o)) as [|x l]
    using rev_ind; [done|].
  rewrite last_snoc in Ho. injection Ho as ->.
  by rewrite (assoc_L (++)), last_snoc.
Qed.

(** C7. On a ready client every sequence of method calls returns, and
    afterwards each header holds exactly the value the last typed setter
    call gave it (its values before the sequence if none did): the set
    has one header line of that name, with that value. So a call of
    [SetApiKey] leaves the single [apikey] value it was given, whatever
    was set before, [SetAuthToken] the single [Authorization] value
    [Bearer] followed by the token, and [ChangeSchema] the schema as the
    single value of both profile headers. *)
Theorem typed_setters_replace (c : Client) (w : World)
    (ops : list operation) :
  ready c →
  ∃ s t t',
    Transport c = Some t
    ∧ run (perform_all ops) c w = (Returned tt, s)
    ∧ Transport (st_client s) = Some t'
    ∧ (∀ name,
         Values (header t') name
         = match last_written name ops with
           | Some v => [v]
           | None => Values (header t) name
           end)
    ∧ (∀ name v,
         last_written name ops = Some v →
         List.filter (same_header name) (pairs (header t'))
         = [(CanonicalMIMEHeaderKey name, v)])
    ∧ (∀ before apiKey,
         ops = before ++ [op_SetApiKey apiKey] →
         Values (header t') "apikey" = [apiKey])
    ∧ (∀ before authToken,
         ops = before ++ [op_SetAuthToken authToken] →
         Values (header t') "Authorization" = ["Bearer " +:+ authToken])
    ∧ (∀ before schema,
         ops = before ++ [op_ChangeSchema schema] →
         Values (header t') "Accept-Profile" = [schema]
         ∧ Values (header t') "Content-Profile" = [schema]).
Proof.
  intros Hready. pose proof Hready as (t & Ht & Hcanon & _).
  destruct (perform_all_ready ops
              {| st_client := c; st_world := w; st_log := [] |} t Hready Ht)
    as (s & t' & Hrun & Hready' & Ht' & _ & Hh).
  assert (Hvalues : ∀ name,
            Values (header t') name
            = match last_written name ops with
              | Some v => [v]
              | None => Values (header t) name
              end).
  { intros name. rewrite Hh, Values_Set_all. unfold last_written.
    by destruct (last _). }
  exists s, t, t'. do 3 (split; [done|]). split; [done|].
  split; [|split; [|split]].
  - intros name v Hv. rewrite filter_pairs.
    + by rewrite Hvalues, Hv.
    + rewrite Hh. by apply canonical_Set_all.
  - intros before apiKey ->. rewrite Hvalues.
    by rewrite (last_written_snoc _ _ _ ("apikey", apiKey)).
  - intros before authToken ->. rewrite Hvalues.
    by rewrite (last_written_snoc _ _ _
                  ("Authorization", "Bearer " +:+ authToken)).
  - intros before schema ->. rewrite !Hvalues.
    rewrite (last_written_snoc _ _ _ ("Accept-Profile", schema)) by done.
    by rewrite (last_written_snoc _ _ _ ("Content-Profile", schema)).
Qed.

End Setters.

(** ** The requests of [Rpc] *)

Section Rpc_requests.
Import textproto textproto_facts http_Header http_Header_facts.
Context `{Engines}.

Lemma count_accepted_spec (count : string) :
  count_accepted count = true ↔ count ∈ counts.
Proof.
  unfold count_accepted, counts.
  rewrite !elem_of_cons, elem_of_nil, andb_true_iff, !orb_true_iff,
    negb_true_iff, !String.eqb_eq, String.eqb_neq.
  split.
  - intros [_ [[?|?]|?]]; auto.
  - intros [->|[->|[->|[]]]]; (split; [done|auto]).
Qed.

(** Every request [Rpc] sends from a ready client: a POST with the
    payload of the body and no deadline, carrying the default header lines
    and the [Prefer] line of the count; its address is the resolved URL,
    which the standard engine parses and resolves once more. *)
Lemma Rpc_request (c : Client) (w : World) (name count : string)
    (rpcBody : option Value) (t : transport) (cr : EngineCall * Reply) :
  ready c → Transport c = Some t →
  cr ∈ st_log (run (Rpc name count rpcBody) c w).2 →
  call_Method cr.1 = "POST"
  ∧ call_payload cr.1 = payload rpcBody
  ∧ call_deadline cr.1 = None
  ∧ call_lines cr.1 ≡ₚ pairs (header t) ++ Prefer_count count
  ∧ if useFastHTTP c
    then call_address cr.1 = URL_String (full_URL t ["rpc"; name])
    else ∃ u,
      http_NewRequest_URL (URL_String (full_URL t ["rpc"; name])) = inr u
      ∧ call_address cr.1
        = URL_String (URL_ResolveReference (baseURL t) u).
Proof.
  intros Hready Ht. unfold payload, Prefer_count.
  pose proof Hready as (t' & Ht' & Hcanon & _).
  assert (t' = t) as -> by congruence. clear Ht'.
  destruct c as [ce sess tr fast fc]; simpl in Ht; subst tr.
  destruct Hready as (t' & [= <-] & _ & Hengine). simpl in Hengine.
  destruct fast; [destruct Hengine as [fc' ->]|subst sess].
  all: run_cases.
  all: rewrite ?elem_of_nil, ?list_elem_of_singleton; intros Hcr;
    try done; subst cr; simpl.
  all: repeat split; try done.
  all: rewrite ?app_nil_r, ?fasthttp_range_Add_perm, ?pairs_range_Add,
         ?pairs_Add, ?pairs_empty by done; simpl; try done.
  all: try apply Permutation_app_comm.
  all: try (change (CanonicalMIMEHeaderKey "Prefer") with "Prefer";
            apply Permutation_cons_append).
  all: by eexists.
Qed.

Lemma Rpc_count_ignored (name count : string) (rpcBody : option Value) :
  count ∉ counts → Rpc name count rpcBody = Rpc name "" rpcBody.
Proof.
  intros Hcount. assert (count_accepted count = false) as Hc.
  { apply not_true_is_false. by rewrite count_accepted_spec. }
  unfold Rpc. by rewrite Hc.
Qed.

Lemma Rpc_sends_or_fails (c : Client) (w : World) (name count : string)
    (rpcBody : option Value) :
  ready c →
  let r := run (Rpc name count rpcBody) c w in
  st_log r.2 = [] → ∃ err, Rpc_failed c name rpcBody r.2 err.
Proof.
  intros Hready r Hlog.
  destruct (Rpc_outcomes c w name count rpcBody Hready)
    as [[b Hok]|[Hfail|[e [Hclose _]]]].
  - destruct Hok as (call & reply & Hl & _). fold r in Hl. congruence.
  - done.
  - destruct Hclose as (call & resp & body & Hl & _). fold r in Hl.
    congruence.
Qed.

(** C4, amended. On a ready client, when the count is one of [exact],
    [planned] and [estimated], every request [Rpc] sends carries the
    header line [Prefer: count=<count>]. For any other count [Rpc] adds no
    [Prefer] line and raises no error: it runs exactly as with the empty
    count, and the [Prefer] lines of its request are those of the client's
    default header set, none when that set has no [Prefer] header. A
    request is sent unless marshalling the body or constructing the
    request failed. *)
Theorem Prefer_follows_count (c : Client) (w : World) (name count : string)
    (rpcBody : option Value) (t : transport) :
  ready c → Transport c = Some t →
  let r := run (Rpc name count rpcBody) c w in
  (count ∈ counts →
   ∀ cr, cr ∈ st_log r.2 → ("Prefer", "count=" +:+ count) ∈ call_lines cr.1)
  ∧ (count ∉ counts →
     r = run (Rpc name "" rpcBody) c w
     ∧ ∀ cr value, cr ∈ st_log r.2 →
         ("Prefer", value) ∈ call_lines cr.1
         ↔ value ∈ Values (header t) "Prefer")
  ∧ (st_log r.2 = [] → ∃ err, Rpc_failed c name rpcBody r.2 err).
Proof.
  intros Hready Ht r. split; [|split].
  - intros Hcount cr Hcr.
    destruct (Rpc_request c w name count rpcBody t cr Hready Ht Hcr)
      as (_ & _ & _ & Hlines & _).
    rewrite Hlines. unfold Prefer_count.
    apply count_accepted_spec in Hcount. rewrite Hcount.
    apply elem_of_app. right. by left.
  - intros Hcount. split.
    + subst r. by rewrite Rpc_count_ignored.
    + intros cr value Hcr.
      destruct (Rpc_request c w name count rpcBody t cr Hready Ht Hcr)
        as (_ & _ & _ & Hlines & _).
      rewrite Hlines. unfold Prefer_count.
      replace (count_accepted count) with false
        by (symmetry; apply not_true_is_false;
            by rewrite count_accepted_spec).
      rewrite app_nil_r, elem_of_pairs. unfold Values.
      change (CanonicalMIMEHeaderKey "Prefer") with "Prefer".
      destruct (header t !! "Prefer") as [vs|]; simpl.
      * split; [by intros (vs' & [= <-] & Hv)|eauto].
      * rewrite elem_of_nil. split; [by intros (vs' & [=] & _)|done].
  - by apply Rpc_sends_or_fails.
Qed.

End Rpc_requests.

(** ** The two branches of [Rpc] *)

Section Rpc_branches.
Import textproto textproto_facts http_Header http_Header_facts.
Context `{Engines}.

Lemma marshals_byteBody (rpcBody : option Value) :
  marshals rpcBody ↔ ∃ byteBody, Rpc_byteBody rpcBody = inr byteBody.
Proof.
  unfold marshals, Rpc_byteBody. destruct rpcBody as [v|].
  - split.
    + intros Hm. destruct (Hm v eq_refl) as [b ->]. by eexists.
    + intros [b Hb] v' [= <-]. destruct (json_Marshal v); [done|by eexists].
  - split; [by eexists|done].
Qed.



End Rpc_branches.

(** ** The requests and results of [Ping] *)

Section Ping_facts.
Import textproto textproto_facts http_Header http_Header_facts.
Context `{Engines}.


(** [Ping] on a ready client returns. On the pooled engine it returns true
    exactly when the engine answered with status code 200, on the standard
    engine exactly when the status line of the answer is the text
    [200 OK]. Returning false it has set [ClientError]; returning true it
    has left [ClientError] alone. *)
Lemma Ping_result (c : Client) (w : World) :
  ready c →
  ∃ b s, run Ping c w = (Returned b, s)
    ∧ (b = true ↔
       ∃ call,
         (∃ resp, st_log s = [(call, reply_fasthttp (inr resp))]
                  ∧ fh_StatusCode resp = 200)
         ∨ (∃ resp, st_log s = [(call, reply_http (inr resp))]
                    ∧ Status resp = "200 OK"))
    ∧ (b = false → is_Some (ClientError (st_client s)))
    ∧ (b = true → ClientError (st_client s) = ClientError c).
Proof.
  intros Hready. ready_cases c Hready; run_cases.
  all: eexists _, _; split; [done|]; simpl.
  all: repeat split; try done; eauto.
  all: try (intros (call & [(resp & Hl & Hs)|(resp & Hl & Hs)]);
            simplify_eq; simpl in *).
  all: try match goal with
           | H : negb (_ =? _) = true |- _ =>
               apply negb_true_iff, Z.eqb_neq in H; done
           | H : negb (String.eqb _ _) = true |- _ =>
               apply negb_true_iff, String.eqb_neq in H; done
           end.
  all: intros _; eexists.
  all: first [ left; eexists; split; [done|];
               match goal with
               | H : negb (_ =? _) = false |- _ =>
                   by apply negb_false_iff, Z.eqb_eq in H
               end
             | right; eexists; split; [done|];
               match goal with
               | H : negb (String.eqb _ _) = false |- _ =>
                   by apply negb_false_iff, String.eqb_eq in H
               end ].
Qed.

End Ping_facts.

(** * The client for localhost: examples, failing inputs and witnesses *)

Section On_localhost.
Import Demo http_Header.

Example transport_of_standard_client :
  Transport standard_client = Some (default_transport []).
Proof. reflexivity. Qed.

Example rpc_address :
  URL_String (full_URL (default_transport []) ["rpc"; "add_them"])
  = "http://localhost:3000/rpc/add_them".
Proof. reflexivity. Qed.

Example ping_ok : (run Ping standard_client (serving "")).1 = Returned true.
Proof. reflexivity. Qed.

Example rpc_ok :
  (run (Rpc "add_them" "" (Some (json_text "{}"))) pooled_client
       (serving "12")).1
  = Returned "12".
Proof. reflexivity. Qed.

Example stale_error :
  ClientError client_after_failure = Some "dial tcp: connection refused".
Proof. reflexivity. Qed.

(** C1, counterexample. The address [":"] does not parse (the scheme is
    missing); [Ping] on the client [NewClient] returns for it does not
    return false. *)
Lemma failed_construction_not_safe :
  ¬ failed_construction_is_safe (NewClient ":" "" []) (serving "").
Proof. intros (_ & _ & s & Hs). discriminate Hs. Qed.

(** C1, witness *)
Lemma failed_construction_Ping_panics_witness :
  url_Parse ":" = inl "missing protocol scheme"
  ∧ ClientError (NewClient ":" "" []) = Some "missing protocol scheme"
  ∧ Transport (NewClient ":" "" []) = None
  ∧ run Ping (NewClient ":" "" []) (serving "")
    = (Panicked nil_pointer_dereference,
       {| st_client := NewClient ":" "" []; st_world := serving "";
          st_log := [] |}).
Proof.
  split; [reflexivity|].
  apply (failed_construction_Ping_panics ":" "" []);
    [reflexivity|left; reflexivity].
Defined.

(** C2, counterexample. With no extra headers the header set holds the
    baseline values but has five entries, not six; with an extra [accept]
    header the [Accept] value is the caller's, not the JSON one. *)
Lemma not_six_baseline_headers :
  ¬ six_baseline_headers (NewClient localhost "" []) "public"
  ∧ ¬ baseline_headers_present
        (NewClient localhost "" [("accept", "text/csv")]) "public".
Proof.
  split.
  - intros (_ & t & Ht & Hsize). injection Ht as <-.
    change (6 ≤ 5)%nat in Hsize. lia.
  - intros (t & Ht & Hvalues). injection Ht as <-.
    specialize (Hvalues "Accept" "application/json" (list_elem_of_here _ _)).
    discriminate Hvalues.
Qed.

(** C2, witness *)
Lemma constructors_set_five_baseline_headers_witness :
  url_Parse localhost = inr base
  ∧ ∃ t, Transport standard_client = Some t
      ∧ baseURL t = base
      ∧ (∀ name value, (name, value) ∈ baseline (default_schema "") →
           (∃ v, Values (header t) name = [v])
           ∧ ((∀ kv : string * string, kv ∈ [] →
                 textproto.CanonicalMIMEHeaderKey kv.1
                 ≠ textproto.CanonicalMIMEHeaderKey name) →
              Values (header t) name = [value]))
      ∧ (@nil (string * string) = [] →
         size (header t) = 5%nat
         ∧ pairs (header t) ≡ₚ baseline (default_schema "")).
Proof.
  split; [reflexivity|].
  apply (constructors_set_five_baseline_headers localhost "" []);
    [reflexivity|left; reflexivity].
Defined.

(** C3, at the failing input. [Ping] on a standard-engine client sends its
    GET with no deadline, while the same [Ping] on a pooled-engine client
    gives the engine a deadline five seconds after the time of the call
    (here the clock shows 1000). *)
Theorem Ping_standard_engine_sets_no_deadline :
  shown <$> st_log (run Ping standard_client (serving "")).2
  = [(standard, "GET", "http://localhost:3000", None)]
  ∧ shown <$> st_log (run Ping pooled_client (serving "")).2
    = [(pooled, "GET", "http://localhost:3000",
        Some (1000 + 5 * time_Second))].
Proof. split; reflexivity. Qed.

(** C5, at the failing input. A server answers with status code 200 and
    the status line [200 Success]. [Ping] on a standard-engine client
    returns false and sets [ClientError]; on a pooled-engine client it
    returns true. *)
Theorem Ping_standard_engine_wants_the_text_200_OK :
  let w := answering "200 Success" 200 in
  (run Ping standard_client w).1 = Returned false
  ∧ ClientError (st_client (run Ping standard_client w).2)
    = Some "ping failed"
  ∧ (run Ping pooled_client w).1 = Returned true
  ∧ ClientError (st_client (run Ping pooled_client w).2) = None.
Proof. repeat split; reflexivity. Qed.

(** C4, counterexample. A pooled-engine client constructed with the extra
    header [Prefer: return=minimal] sends that header with every request,
    also when [Rpc] is called with the count [bogus]. *)
Lemma Prefer_sent_for_other_count :
  ¬ Prefer_only_for_counts
      (NewClientFast localhost "" [("Prefer", "return=minimal")])
      (serving "") "add_them" "bogus" None.
Proof.
  unfold Prefer_only_for_counts. intros [_ Hnone].
  assert (Hbogus : "bogus" ∉ counts).
  { unfold counts. rewrite !elem_of_cons, elem_of_nil. by intros [|[|[|]]]. }
  eapply (Hnone Hbogus _ "return=minimal").
  - apply (list_elem_of_lookup_2 _ 0%nat). reflexivity.
  - simpl. rewrite fasthttp_range_Add_perm. simpl.
    apply http_Header_facts.elem_of_pairs. exists ["return=minimal"].
    split; [reflexivity|by left].
Qed.

Lemma standard_client_ready : ready standard_client.
Proof. by eapply NewClient_ready. Qed.


(** C4, witness: [Rpc] with the count [exact] on the standard engine *)
Lemma Prefer_follows_count_witness :
  ready standard_client
  ∧ Transport standard_client = Some (default_transport [])
  ∧ let r := run (Rpc "add_them" "exact" None) standard_client (serving "12") in
    ("exact" ∈ counts →
     ∀ cr, cr ∈ st_log r.2 → ("Prefer", "count=" +:+ "exact") ∈ call_lines cr.1)
    ∧ ("exact" ∉ counts →
       r = run (Rpc "add_them" "" None) standard_client (serving "12")
       ∧ ∀ cr value, cr ∈ st_log r.2 →
           ("Prefer", value) ∈ call_lines cr.1
           ↔ value ∈ Values (header (default_transport [])) "Prefer")
    ∧ (st_log r.2 = [] →
       ∃ err, Rpc_failed standard_client "add_them" None r.2 err).
Proof.
  split; [apply standard_client_ready|]. split; [reflexivity|].
  apply (Prefer_follows_count standard_client (serving "12") "add_them"
           "exact" None (default_transport []));
    [apply standard_client_ready|reflexivity].
Defined.


(** C7, witness: [SetApiKey] twice *)
Lemma typed_setters_replace_witness :
  ready standard_client
  ∧ ∃ s t t',
      Transport standard_client = Some t
      ∧ run (perform_all [op_SetApiKey "X"; op_SetApiKey "Y"])
            standard_client (serving "")
        = (Returned tt, s)
      ∧ Transport (st_client s) = Some t'
      ∧ (∀ name,
           Values (header t') name
           = match last_written name [op_SetApiKey "X"; op_SetApiKey "Y"] with
             | Some v => [v]
             | None => Values (header t) name
             end)
      ∧ (∀ name v,
           last_written name [op_SetApiKey "X"; op_SetApiKey "Y"] = Some v →
           List.filter (same_header name) (pairs (header t'))
           = [(textproto.CanonicalMIMEHeaderKey name, v)])
      ∧ (∀ before apiKey,
           [op_SetApiKey "X"; op_SetApiKey "Y"]
           = before ++ [op_SetApiKey apiKey] →
           Values (header t') "apikey" = [apiKey])
      ∧ (∀ before authToken,
           [op_SetApiKey "X"; op_SetApiKey "Y"]
           = before ++ [op_SetAuthToken authToken] →
           Values (header t') "Authorization" = ["Bearer " +:+ authToken])
      ∧ (∀ before schema,
           [op_SetApiKey "X"; op_SetApiKey "Y"]
           = before ++ [op_ChangeSchema schema] →
           Values (header t') "Accept-Profile" = [schema]
           ∧ Values (header t') "Content-Profile" = [schema]).
Proof.
  split; [apply standard_client_ready|].
  apply (typed_setters_replace standard_client (serving "")
           [op_SetApiKey "X"; op_SetApiKey "Y"]).
  apply standard_client_ready.
Defined.

Example apikey_set_twice :
  (λ s, Values (header (default (default_transport []) (Transport (st_client s))))
               "apikey")
    (run (perform_all [op_SetApiKey "X"; op_SetApiKey "Y"])
         standard_client (serving "")).2
  = ["Y"].
Proof. reflexivity. Qed.

(** C8, witness: the engine of a client made by [NewClientFast] *)
Lemma engine_fixed_at_construction_witness :
  url_Parse localhost = inr base
  ∧ active_engine (NewClientFast localhost "" []) = pooled.
Proof.
  split; [reflexivity|].
  apply (proj1 (proj2 (@engine_fixed_at_construction demo_url demo_engines))
           localhost "" [] base).
  reflexivity.
Defined.

(** C9, witness: a client whose [ClientError] holds the error of an
    earlier failure *)
Lemma success_keeps_stale_ClientError_witness :
  ClientError client_after_failure = Some "dial tcp: connection refused"
  ∧ (∀ s, run Ping client_after_failure (serving "") = (Returned true, s) →
          ClientError (st_client s) = Some "dial tcp: connection refused")
  ∧ (∀ name count rpcBody result,
       let r := run (Rpc name count rpcBody) client_after_failure
                    (serving "") in
       Rpc_succeeded r.2 result →
       r.1 = Returned result
       ∧ ClientError (st_client r.2) = Some "dial tcp: connection refused").
Proof.
  split; [reflexivity|].
  apply (success_keeps_stale_ClientError client_after_failure (serving "")).
  reflexivity.
Defined.

Example stale_error_after_success :
  let r := run Ping client_after_failure (serving "") in
  r.1 = Returned true
  ∧ ClientError (st_client r.2) = Some "dial tcp: connection refused".
Proof. split; reflexivity. Qed.


End On_localhost.


(** * Further properties of the client *)

(** ** Limits of the methods: requests, panics, the error slot *)

Section Method_limits.
Context `{Engines}.
Local Open Scope go_scope.

(** X1. [SetFastHTTPMaxConns] returns on every client, also one without
    transport or without [fasthttp.Client], sends nothing, and leaves a
    [fasthttp.Client] whose cap per host is positive: the number given
    when that is positive, and 30 otherwise. The last call decides: a call
    after another one gives what it gives alone. On a client fresh from
    [NewClientFast] a call with a number that is not positive changes
    nothing. *)
Theorem SetFastHTTPMaxConns_cap (n : Z) (c : Client) (w : World) :
  (∃ fc,
     run (SetFastHTTPMaxConns n) c w
     = (Returned tt,
        {| st_client :=
             {| ClientError := ClientError c; session := session c;
                Transport := Transport c; useFastHTTP := useFastHTTP c;
                fastHTTPClient := Some fc |};
           st_world := w; st_log := [] |})
     ∧ 0 < MaxConnsPerHost fc
     ∧ (0 < n → MaxConnsPerHost fc = n)
     ∧ (n ≤ 0 → MaxConnsPerHost fc = 30))
  ∧ (∀ before,
       run (SetFastHTTPMaxConns before ;;; SetFastHTTPMaxConns n) c w
       = run (SetFastHTTPMaxConns n) c w)
  ∧ (∀ rawURL schema headers u,
       url_Parse rawURL = inr u → n ≤ 0 →
       st_client (run (SetFastHTTPMaxConns n)
                      (NewClientFast rawURL schema headers) w).2
       = NewClientFast rawURL schema headers).
Proof.
  split; [|split].
  - exists {| MaxConnsPerHost := if n <=? 0 then 30 else n |}.
    split; [reflexivity|]. simpl.
    destruct (Z.leb_spec n 0); repeat split; lia.
  - intros before. reflexivity.
  - intros rawURL schema headers u Hu Hn. unfold NewClientFast.
    rewrite Hu. unfold_methods. simpl.
    by destruct (Z.leb_spec n 0); [|lia].
Qed.

(** X2. A client without transport, as a failed construction leaves it,
    sends nothing, whatever is called on it. [SetApiKey], [SetAuthToken],
    [ChangeSchema], [Ping], and [Rpc] with a nil body or a body that
    marshals panic on the nil transport and leave client and world as they
    were. [Rpc] marshals first: with a body that does not marshal it
    returns the empty string and records the marshalling error.
    [SetFastHTTPMaxConns] returns. *)
Theorem client_without_transport (c : Client) (w : World) :
  Transport c = None →
  let untouched :=
    {| st_client := c; st_world := w; st_log := [] |} in
  (∀ apiKey,
     run (SetApiKey apiKey) c w = (Panicked nil_pointer_dereference, untouched))
  ∧ (∀ authToken,
       run (SetAuthToken authToken) c w
       = (Panicked nil_pointer_dereference, untouched))
  ∧ (∀ schema,
       run (ChangeSchema schema) c w
       = (Panicked nil_pointer_dereference, untouched))
  ∧ run Ping c w = (Panicked nil_pointer_dereference, untouched)
  ∧ (∀ name count rpcBody,
       marshals rpcBody →
       run (Rpc name count rpcBody) c w
       = (Panicked nil_pointer_dereference, untouched))
  ∧ (∀ name count v err,
       json_Marshal v = inl err →
       run (Rpc name count (Some v)) c w
       = (Returned "",
          {| st_client := with_ClientError (Some err) c; st_world := w;
             st_log := [] |}))
  ∧ (∀ n, (run (SetFastHTTPMaxConns n) c w).1 = Returned tt
          ∧ st_log (run (SetFastHTTPMaxConns n) c w).2 = []).
Proof.
  intros Hc untouched. subst untouched.
  assert (Hsetter : ∀ key value,
            run (header_Set key value) c w
            = (Panicked nil_pointer_dereference,
               {| st_client := c; st_world := w; st_log := [] |})).
  { intros key value. unfold_methods. simpl. by rewrite Hc. }
  split; [intros; apply Hsetter|]. split; [intros; apply Hsetter|].
  split; [intros schema; unfold ChangeSchema, run, bind;
          fold (run (header_Set "Accept-Profile" schema) c w);
          by rewrite Hsetter|].
  split; [unfold_methods; simpl; by rewrite Hc|].
  split; [|split].
  - intros name count rpcBody Hm. unfold run, Rpc.
    destruct (proj1 (marshals_byteBody rpcBody) Hm) as [byteBody ->].
    unfold_methods. simpl. by rewrite Hc.
  - intros name count v err Hv. unfold_methods. by rewrite Hv.
  - intros n. by split.
Qed.



Lemma perform_keeps_error (o : operation) (s0 : state) :
  is_Some (ClientError (st_client s0)) →
  is_Some (ClientError (st_client (perform o s0).2)).
Proof. intros Hs. destruct o; run_cases; first [done | by eexists]. Qed.

(** X3. No method clears [ClientError]: once the slot holds an error, it
    holds one after every sequence of method calls, on every client. *)
Theorem ClientError_never_cleared (ops : list operation) (c : Client)
    (w : World) :
  is_Some (ClientError c) →
  is_Some (ClientError (st_client (run (perform_all ops) c w).2)).
Proof.
  assert (Hgen : ∀ s0,
            is_Some (ClientError (st_client s0)) →
            is_Some (ClientError (st_client (perform_all ops s0).2))).
  { induction ops as [|o ops IH]; intros s0 Hs; simpl; [done|].
    unfold bind. pose proof (perform_keeps_error o s0 Hs) as Ho.
    destruct (perform o s0) as [[[]|p] s1]; simpl in *; [by apply IH|done]. }
  intros Hc. by apply (Hgen {| st_client := c; st_world := w; st_log := [] |}).
Qed.


(** X5. [Ping] and [Rpc] write nothing of the client but [ClientError]:
    after the call the session, the transport with its header set and
    base URL, the choice of engine and the [fasthttp.Client] are what they
    were, on every client and whatever the engine answers. *)
Theorem Ping_Rpc_write_only_ClientError (c : Client) (w : World) :
  (∃ ce, st_client (run Ping c w).2 = with_ClientError ce c)
  ∧ (∀ name count rpcBody,
       ∃ ce, st_client (run (Rpc name count rpcBody) c w).2
             = with_ClientError ce c).
Proof.
  assert (Hc : c = with_ClientError (ClientError c) c) by by destruct c.
  split; [|intros name count rpcBody]; run_cases;
    first [ by exists (ClientError c) | by eexists ].
Qed.

End Method_limits.

(** ** The header set: construction, setters, single values *)

Section Header_set.
Import textproto textproto_facts http_Header http_Header_facts.
Context `{Engines}.
Local Open Scope go_scope.

Lemma single_valued_Set (h : Header) (key value : string) :
  single_valued h → single_valued (Set_ key value h).
Proof.
  intros Hh k vs Hk. unfold Set_ in Hk.
  destruct (decide (CanonicalMIMEHeaderKey key = k)) as [<-|Hne].
  - rewrite lookup_insert_eq in Hk. injection Hk as <-. by eexists.
  - rewrite lookup_insert_ne in Hk by done. by apply (Hh k).
Qed.

Lemma single_valued_Set_all (l : list (string * string)) :
  ∀ h : Header, single_valued h → single_valued (Set_all l h).
Proof.
  unfold Set_all. induction l as [|nv l IH]; intros h Hh; simpl; [done|].
  apply IH. by apply single_valued_Set.
Qed.

Lemma single_valued_required_headers (schema : string) :
  single_valued (required_headers schema ∅).
Proof.
  unfold required_headers. repeat apply single_valued_Set.
  intros k vs Hk. by rewrite lookup_empty in Hk.
Qed.

(** The header set both constructors build *)
Lemma constructed_header (rawURL schema : string)
    (headers : list (string * string)) (u : URL) (c : Client) :
  url_Parse rawURL = inr u →
  c = NewClient rawURL schema headers
  ∨ c = NewClientFast rawURL schema headers →
  ready c
  ∧ Transport c
    = Some {| header := Set_all headers
                          (required_headers (default_schema schema) ∅);
              baseURL := u; Parent := None |}.
Proof.
  intros Hu [->| ->].
  - split; [by eapply NewClient_ready|].
    unfold NewClient. by rewrite Hu.
  - split; [by eapply NewClientFast_ready|].
    unfold NewClientFast. by rewrite Hu.
Qed.

(** X6. The typed setters commute: [SetApiKey], [SetAuthToken] and
    [ChangeSchema] write different headers, so two of them called in
    either order leave the same client (and on a client without
    transport both orders panic alike). *)
Theorem typed_setters_commute (c : Client) (w : World)
    (apiKey authToken schema : string) :
  run (SetApiKey apiKey ;;; SetAuthToken authToken) c w
  = run (SetAuthToken authToken ;;; SetApiKey apiKey) c w
  ∧ run (SetApiKey apiKey ;;; ChangeSchema schema) c w
    = run (ChangeSchema schema ;;; SetApiKey apiKey) c w
  ∧ run (SetAuthToken authToken ;;; ChangeSchema schema) c w
    = run (ChangeSchema schema ;;; SetAuthToken authToken) c w.
Proof.
  assert (Hswap : ∀ (h : Header) k1 v1 k2 v2,
            CanonicalMIMEHeaderKey k1 ≠ CanonicalMIMEHeaderKey k2 →
            Set_ k2 v2 (Set_ k1 v1 h) = Set_ k1 v1 (Set_ k2 v2 h)).
  { intros h k1 v1 k2 v2 Hne. unfold Set_. by apply insert_insert_ne. }
  unfold_methods. simpl. destruct (Transport c) as [t|]; simpl; [|done].
  split; [|split].
  - by rewrite (Hswap _ "apikey" _ "Authorization").
  - rewrite (Hswap _ "apikey" _ "Accept-Profile") by done.
    by rewrite (Hswap _ "apikey" _ "Content-Profile").
  - rewrite (Hswap _ "Authorization" _ "Accept-Profile") by done.
    by rewrite (Hswap _ "Authorization" _ "Content-Profile").
Qed.

(** X7. The extra headers given to a constructor are set after the
    baseline ones, by name without regard to case: for every name among
    them the header set holds exactly the value of the last entry with
    that name, also when the name is a baseline one. Every header of the
    constructed set has a single value and a canonical name. *)
Theorem constructor_extra_headers (rawURL schema : string)
    (headers : list (string * string)) (u : URL) (c : Client) :
  url_Parse rawURL = inr u →
  c = NewClient rawURL schema headers
  ∨ c = NewClientFast rawURL schema headers →
  ∃ t, Transport c = Some t
    ∧ (∀ name kv,
         last (List.filter (same_header name) headers) = Some kv →
         Values (header t) name = [kv.2])
    ∧ single_valued (header t)
    ∧ canonical (header t).
Proof.
  intros Hu Hc.
  destruct (constructed_header rawURL schema headers u c Hu Hc) as [_ Ht].
  eexists. split; [done|]. simpl. split; [|split].
  - intros name kv Hkv. by rewrite Values_Set_all, Hkv.
  - apply single_valued_Set_all, single_valued_required_headers.
  - apply canonical_Set_all, canonical_required_headers, canonical_empty.
Qed.

End Header_set.

Section Constructed_clients.
Import textproto textproto_facts http_Header http_Header_facts.
Context `{Engines}.
Local Open Scope go_scope.

(** A constructed client after a sequence of method calls *)
Lemma constructed_then (rawURL schema : string)
    (headers : list (string * string)) (u : URL) (c : Client)
    (ops : list operation) (w : World) :
  url_Parse rawURL = inr u →
  c = NewClient rawURL schema headers
  ∨ c = NewClientFast rawURL schema headers →
  ∃ s t, run (perform_all ops) c w = (Returned tt, s)
    ∧ ready (st_client s)
    ∧ Transport (st_client s) = Some t
    ∧ baseURL t = u
    ∧ header t
      = Set_all (headers ++ (ops ≫= written))
                (required_headers (default_schema schema) ∅).
Proof.
  intros Hu Hc.
  destruct (constructed_header rawURL schema headers u c Hu Hc)
    as [Hready Ht].
  destruct (perform_all_ready ops
              {| st_client := c; st_world := w; st_log := [] |} _ Hready Ht)
    as (s & t' & Hrun & Hready' & Ht' & Hb & Hh).
  exists s, t'. repeat split; [done..|].
  by rewrite Hh, Set_all_app.
Qed.



(** X8. A client that [NewClient] or [NewClientFast] constructed from a
    URL that parses never panics: every sequence of method calls on it
    returns, whatever the engines answer, and leaves it ready for the
    next call. Its base URL stays the URL parsed at construction. *)
Theorem constructed_client_never_panics (rawURL schema : string)
    (headers : list (string * string)) (u : URL) (c : Client)
    (ops : list operation) (w : World) :
  url_Parse rawURL = inr u →
  c = NewClient rawURL schema headers
  ∨ c = NewClientFast rawURL schema headers →
  ∃ s t, run (perform_all ops) c w = (Returned tt, s)
    ∧ ready (st_client s)
    ∧ Transport (st_client s) = Some t
    ∧ baseURL t = u.
Proof.
  intros Hu Hc.
  destruct (constructed_then rawURL schema headers u c ops w Hu Hc)
    as (s & t & Hrun & Hready & Ht & Hb & _).
  by exists s, t.
Qed.



(** X14. The two constructors differ in the engine only: for the same
    arguments they build the same transport (base URL and header set) and
    record the same error. From a URL that parses [NewClient] gives a
    standard-engine client without [fasthttp.Client] and [NewClientFast]
    a pooled-engine client with a cap of 30 connections per host; from a
    URL that does not parse both give the same client. *)
Theorem constructors_differ_in_engine_only (rawURL schema : string)
    (headers : list (string * string)) :
  Transport (NewClient rawURL schema headers)
  = Transport (NewClientFast rawURL schema headers)
  ∧ ClientError (NewClient rawURL schema headers)
    = ClientError (NewClientFast rawURL schema headers)
  ∧ (∀ u, url_Parse rawURL = inr u →
       useFastHTTP (NewClient rawURL schema headers) = false
       ∧ fastHTTPClient (NewClient rawURL schema headers) = None
       ∧ useFastHTTP (NewClientFast rawURL schema headers) = true
       ∧ fastHTTPClient (NewClientFast rawURL schema headers)
         = Some {| MaxConnsPerHost := 30 |})
  ∧ (∀ err, url_Parse rawURL = inl err →
       NewClient rawURL schema headers
       = NewClientFast rawURL schema headers).
Proof.
  unfold NewClient, NewClientFast.
  destruct (url_Parse rawURL) as [e|u']; repeat split; done.
Qed.

End Constructed_clients.

Section On_the_wire.
Import textproto textproto_facts http_Header http_Header_facts.
Context `{Engines}.
Local Open Scope go_scope.




End On_the_wire.

(** ** [RoundTrip] and the verdict of [Ping] *)

Section Round_trips.
Import textproto textproto_facts http_Header http_Header_facts.
Context `{Engines}.
Local Open Scope go_scope.

Lemma Values_Add (h : Header) (k v key : string) :
  Values (Add k v h) key
  = Values h key
    ++ if decide (CanonicalMIMEHeaderKey k = CanonicalMIMEHeaderKey key)
       then [v] else [].
Proof.
  unfold Add, Values. case_decide as Hk.
  - by rewrite <-Hk, lookup_insert_eq.
  - by rewrite lookup_insert_ne, app_nil_r.
Qed.

Lemma Values_foldl_Add (k key : string) (vs : list string) :
  ∀ h : Header,
    Values (foldl (λ dst val, Add k val dst) h vs) key
    = Values h key
      ++ if decide (CanonicalMIMEHeaderKey k = CanonicalMIMEHeaderKey key)
         then vs else [].
Proof.
  induction vs as [|v vs IH]; intros h; simpl.
  - case_decide; by rewrite app_nil_r.
  - rewrite IH, Values_Add. case_decide; by rewrite <-?(assoc_L (++)).
Qed.

Lemma Values_range_entries (key : string) (dst : Header)
    (l : list (string * list string)) :
  NoDup l.*1 →
  (∀ kv, kv ∈ l → CanonicalMIMEHeaderKey kv.1 = kv.1) →
  Values (foldr (uncurry (λ headerName values dst,
                    foldl (λ dst val, Add headerName val dst) dst values))
                dst l) key
  = Values dst key
    ++ default [] ((list_to_map l : Header) !! CanonicalMIMEHeaderKey key).
Proof.
  induction l as [|[k vs] l IH]; intros Hnd Hcanon.
  - simpl. by rewrite lookup_empty, app_nil_r.
  - apply NoDup_cons in Hnd as [Hk Hnd]. simpl in Hk.
    assert (Hkc : CanonicalMIMEHeaderKey k = k)
      by (apply (Hcanon (k, vs)); by left).
    specialize (IH Hnd (λ kv Hkv, Hcanon kv (list_elem_of_further _ _ _ Hkv))).
    simpl. rewrite Values_foldl_Add, IH, Hkc.
    case_decide as Hkey.
    + rewrite <-Hkey, lookup_insert_eq.
      rewrite (not_elem_of_list_to_map_1 (M := gmap string)) by done.
      simpl. by rewrite app_nil_r.
    + by rewrite lookup_insert_ne, app_nil_r.
Qed.

(** The values of a header after the loop of [RoundTrip]: those the
    request had, then those of the default set. *)
Lemma Values_range_Add (src dst : Header) (key : string) :
  canonical src →
  Values (range_Add src dst) key = Values dst key ++ Values src key.
Proof.
  intros Hsrc. unfold range_Add. rewrite map_fold_foldr.
  rewrite Values_range_entries.
  - by rewrite list_to_map_to_list.
  - apply NoDup_fst_map_to_list.
  - intros [k vs] Hkv. apply elem_of_map_to_list in Hkv. by apply (Hsrc k vs).
Qed.

(** X12. [RoundTrip] sends the request once, to the parent round tripper
    when one is set and to the default transport otherwise, and returns
    the answer. What it sends has the method, body and deadline of the
    request it was given, the URL of that request resolved against the
    base URL, and for every header the values the request had followed by
    the values of the default header set: defaults are added, they
    replace nothing. The client is left as it was. *)
Theorem RoundTrip_adds_defaults (t : transport) (req : Request)
    (s0 : state) :
  canonical (header t) →
  ∃ sent answer w',
    RoundTrip t req s0
    = (Returned answer,
       {| st_client := st_client s0; st_world := w';
          st_log := st_log s0
                    ++ [(match Parent t with
                         | Some p => via_Parent p sent
                         | None => via_DefaultTransport sent
                         end, reply_http answer)] |})
    ∧ (answer, w')
      = match Parent t with
        | Some p => Parent_RoundTrip p sent (st_world s0)
        | None => DefaultTransport_RoundTrip sent (st_world s0)
        end
    ∧ Method sent = Method req
    ∧ req_Body sent = req_Body req
    ∧ ctx_Deadline sent = ctx_Deadline req
    ∧ req_URL sent = URL_ResolveReference (baseURL t) (req_URL req)
    ∧ ∀ key,
        Values (req_Header sent) key
        = Values (req_Header req) key ++ Values (header t) key.
Proof.
  intros Hcanon. unfold RoundTrip.
  set (sent := {| Method := Method req;
                  req_URL := URL_ResolveReference (baseURL t) (req_URL req);
                  req_Header := range_Add (header t) (req_Header req);
                  req_Body := req_Body req;
                  ctx_Deadline := ctx_Deadline req |}).
  destruct (Parent t) as [p|]; unfold engine.
  - destruct (Parent_RoundTrip p sent (st_world s0)) as [answer w'] eqn:Hp.
    exists sent, answer, w'. repeat split; try done.
    intros key. by apply Values_range_Add.
  - destruct (DefaultTransport_RoundTrip sent (st_world s0))
      as [answer w'] eqn:Hp.
    exists sent, answer, w'. repeat split; try done.
    intros key. by apply Values_range_Add.
Qed.


End Round_trips.

(** ** The schema default, the request of [Ping], and the example program *)

Section Programs.
Import textproto textproto_facts http_Header http_Header_facts.
Context `{Engines}.
Local Open Scope go_scope.

(** X16. The default schema belongs to construction only. Both
    constructors read the empty schema as [public]; [ChangeSchema] does
    not: called with the empty string on a ready client it returns and
    leaves both profile headers with the empty string as their single
    value. *)
Theorem empty_schema_defaults_at_construction_only (c : Client)
    (w : World) :
  ready c →
  (∀ rawURL headers,
     NewClient rawURL "" headers = NewClient rawURL "public" headers
     ∧ NewClientFast rawURL "" headers
       = NewClientFast rawURL "public" headers)
  ∧ ∃ s t, run (ChangeSchema "") c w = (Returned tt, s)
      ∧ Transport (st_client s) = Some t
      ∧ Values (header t) "Accept-Profile" = [""]
      ∧ Values (header t) "Content-Profile" = [""]
      ∧ st_log s = [].
Proof.
  intros (t & Ht & _). split; [done|].
  unfold_methods. simpl. rewrite Ht. simpl.
  eexists _, _. split; [done|]. split; [done|]. simpl.
  split; [|split; [|done]].
  - by rewrite Values_Set_ne, Values_Set_eq.
  - by rewrite Values_Set_eq.
Qed.


(** X13. The example program [test/rpc/main.go], whatever the server and
    the encoder do. It never ends in a panic of the runtime, and it sends
    at most one request. It sends none exactly when it panics with the
    error of parsing [REST_URL] or of marshalling the arguments. The
    request it sends goes through the pooled engine with a cap of 30
    connections per host and without deadline: a POST to the base URL
    resolved with the path of [rpc] and [add_them], with the marshalled
    arguments as payload and the five baseline header lines for the schema
    [public] (no [Prefer] line). When the engine fails the program panics
    with the engine's error; when the engine answers, the program prints
    the body of the answer and a newline, whatever the status code. *)
Theorem main_exits (args : Value) (w : World) :
  let r := main args w in
  match st_log r.2 with
  | [] =>
      ∃ err, r.1 = panic_with err
        ∧ (url_Parse REST_URL = inl err
           ∨ (∃ u, url_Parse REST_URL = inr u) ∧ json_Marshal args = inl err)
  | [(call, reply)] =>
      (∃ u body req,
         url_Parse REST_URL = inr u
         ∧ json_Marshal args = inr body
         ∧ call = via_fasthttp {| MaxConnsPerHost := 30 |} req None
         ∧ fh_Method req = "POST"
         ∧ fh_RequestURI req
           = URL_String
               (URL_ResolveReference u
                  (URL_of_Path (path_Join [URL_Path u; "rpc"; "add_them"])))
         ∧ fh_Body req = body
         ∧ fh_Header req ≡ₚ baseline "public")
      ∧ match reply with
        | reply_fasthttp (inr resp) =>
            r.1 = printed (Println (fh_RespBody resp))
        | reply_fasthttp (inl err) => r.1 = panic_with err
        | reply_http _ => False
        end
  | _ => False
  end.
Proof.
  intros r. subst r. unfold main.
  destruct (url_Parse REST_URL) as [err|u] eqn:Hu.
  - unfold NewClientFast. rewrite Hu. simpl. eauto.
  - assert (Hc : NewClientFast REST_URL "" []
                 = {| ClientError := None;
                      session := {| hc_Transport := rt_nil; hc_Timeout := 0 |};
                      Transport :=
                        Some {| header := required_headers "public" ∅;
                                baseURL := u; Parent := None |};
                      useFastHTTP := true;
                      fastHTTPClient := Some {| MaxConnsPerHost := 30 |} |}).
    { unfold NewClientFast. by rewrite Hu. }
    rewrite Hc. clear Hc.
    destruct (pairs_required_headers "public") as [_ Hbase].
    pose proof (fasthttp_range_Add_perm (required_headers "public" ∅) [])
      as Hlines.
    rewrite app_nil_l, Hbase in Hlines. clear Hbase.
    generalize dependent (required_headers "public" ∅). intros h Hlines.
    cbn [ClientError]. run_cases.
    + eexists. split; [done|]. right. by eauto.
    + split; [|done]. eexists _, _, _. by repeat split.
    + split; [|done]. eexists _, _, _. by repeat split.
Qed.

End Programs.

(** ** Further properties on the client for localhost *)

Section More_on_localhost.
Import Demo textproto http_Header http_Header_facts.

Example main_prints :
  (main (json_text "{}") (serving "12")).1 = printed (Println "12").
Proof. reflexivity. Qed.

Example main_panics_when_down :
  (main (json_text "{}") down).1 = panic_with "dial tcp: connection refused".
Proof. reflexivity. Qed.

Example main_prints_error_page :
  (main (json_text "{}")
        {| http_answer := inl "unused";
           fasthttp_answer := inr {| fh_StatusCode := 404;
                                     fh_RespBody := "not found" |};
           clock := 0 |}).1
  = printed (Println "not found").
Proof. reflexivity. Qed.

(** X1, witness: the cap 0 on the pooled client for [localhost] *)
Lemma SetFastHTTPMaxConns_cap_witness :
  url_Parse localhost = inr base
  ∧ 0 ≤ 0
  ∧ st_client (run (SetFastHTTPMaxConns 0)
                   (NewClientFast localhost "" []) (serving "")).2
    = NewClientFast localhost "" [].
Proof.
  split; [reflexivity|]. split; [lia|].
  apply (proj2 (proj2 (@SetFastHTTPMaxConns_cap demo_url demo_engines 0 pooled_client (serving "")))
           localhost "" [] base); [reflexivity|lia].
Defined.

(** X2, witness: the client [NewClient] returns for the address [":"] *)
Lemma client_without_transport_witness :
  Transport (NewClient ":" "" []) = None
  ∧ run Ping (NewClient ":" "" []) (serving "")
    = (Panicked nil_pointer_dereference,
       {| st_client := NewClient ":" "" []; st_world := serving "";
          st_log := [] |}).
Proof.
  split; [reflexivity|].
  apply (@client_without_transport demo_url demo_engines (NewClient ":" "" []) (serving "")).
  reflexivity.
Defined.

(** X3, witness: the client that has seen a failure, then a [Ping] that
    succeeds and a setter *)
Lemma ClientError_never_cleared_witness :
  is_Some (ClientError client_after_failure)
  ∧ is_Some (ClientError
               (st_client (run (perform_all [op_Ping; op_SetApiKey "k"])
                               client_after_failure (serving "")).2)).
Proof.
  split; [eexists; reflexivity|].
  apply (@ClientError_never_cleared demo_url demo_engines [op_Ping; op_SetApiKey "k"]
           client_after_failure (serving "")).
  eexists; reflexivity.
Defined.


(** X7, witness: [NewClient] with an [apikey] header given twice, in two
    spellings *)
Lemma constructor_extra_headers_witness :
  url_Parse localhost = inr base
  ∧ ∃ t,
      Transport (NewClient localhost "" [("apikey", "a"); ("APIKEY", "b")])
      = Some t
      ∧ (∀ name (kv : string * string),
           last (List.filter (same_header name)
                             [("apikey", "a"); ("APIKEY", "b")])
           = Some kv →
           Values (header t) name = [kv.2])
      ∧ single_valued (header t)
      ∧ canonical (header t).
Proof.
  split; [reflexivity|].
  apply (@constructor_extra_headers demo_url demo_engines localhost ""
           [("apikey", "a"); ("APIKEY", "b")] base);
    [reflexivity|left; reflexivity].
Defined.

(** X8, witness: the pooled client for [localhost], a setter and a
    [Ping] against a server that is down *)
Lemma constructed_client_never_panics_witness :
  url_Parse localhost = inr base
  ∧ ∃ s t,
      run (perform_all [op_ChangeSchema "private"; op_Ping])
          (NewClientFast localhost "" []) down
      = (Returned tt, s)
      ∧ ready (st_client s)
      ∧ Transport (st_client s) = Some t
      ∧ baseURL t = base.
Proof.
  split; [reflexivity|].
  apply (@constructed_client_never_panics demo_url demo_engines localhost "" [] base);
    [reflexivity|right; reflexivity].
Defined.




(** X12, witness: the transport of the clients for [localhost] and a GET
    request that brings a header of its own *)
Lemma RoundTrip_adds_defaults_witness :
  canonical (header (default_transport []))
  ∧ ∃ sent answer w',
      RoundTrip (default_transport [])
        {| Method := "GET"; req_URL := base;
           req_Header := Add "Accept" "text/csv" ∅; req_Body := "";
           ctx_Deadline := None |}
        {| st_client := standard_client; st_world := serving "";
           st_log := [] |}
      = (Returned answer,
         {| st_client := standard_client; st_world := w';
            st_log := [] ++ [(via_DefaultTransport sent, reply_http answer)] |})
      ∧ (answer, w') = DefaultTransport_RoundTrip sent (serving "")
      ∧ Method sent = "GET"
      ∧ req_Body sent = ""
      ∧ ctx_Deadline sent = None
      ∧ req_URL sent = URL_ResolveReference base base
      ∧ ∀ key,
          Values (req_Header sent) key
          = Values (Add "Accept" "text/csv" ∅) key
            ++ Values (header (default_transport [])) key.
Proof.
  assert (Hcanon : canonical (header (default_transport []))).
  { apply canonical_optional_headers, canonical_required_headers,
      canonical_empty. }
  split; [exact Hcanon|].
  exact (@RoundTrip_adds_defaults demo_url demo_engines (default_transport [])
           (@Build_Request demo_url "GET" base (Add "Accept" "text/csv" ∅) ""
                           None)
           (@Build_state demo_url demo_engines standard_client (serving "")
                         [])
           Hcanon).
Defined.

(** X14, witness: the two constructors on [localhost] *)
Lemma constructors_differ_in_engine_only_witness :
  url_Parse localhost = inr base
  ∧ useFastHTTP (NewClient localhost "" []) = false
  ∧ fastHTTPClient (NewClient localhost "" []) = None
  ∧ useFastHTTP (NewClientFast localhost "" []) = true
  ∧ fastHTTPClient (NewClientFast localhost "" [])
    = Some {| MaxConnsPerHost := 30 |}.
Proof.
  split; [reflexivity|].
  apply (proj1 (proj2 (proj2
           (@constructors_differ_in_engine_only demo_url demo_engines localhost "" []))) base).
  reflexivity.
Defined.


(** X16, witness: [ChangeSchema] with the empty string on the standard
    client *)
Lemma empty_schema_defaults_at_construction_only_witness :
  ready standard_client
  ∧ ∃ s t, run (ChangeSchema "") standard_client (serving "") = (Returned tt, s)
      ∧ Transport (st_client s) = Some t
      ∧ Values (header t) "Accept-Profile" = [""]
      ∧ Values (header t) "Content-Profile" = [""]
      ∧ st_log s = [].
Proof.
  split; [apply standard_client_ready|].
  apply (proj2 (@empty_schema_defaults_at_construction_only demo_url demo_engines standard_client
                  (serving "") standard_client_ready)).
Defined.


End More_on_localhost.
